(** * BybitQSStrategy: the per-symbol lock gate and the trading loop

    A shallow embedding of
    [directionalscalper/core/strategies/bybit/old/multi/bybit_qs.py].

    - [SymbolLocks] embeds [BybitQSStrategy.run] (lines 42-58): the
      module-level dict [symbol_locks], its lazily created
      [threading.Lock] objects, and the threads that call [run], as an
      interleaving step function.
    - The rest embeds one pass through the [while True] body of
      [run_single_symbol] (lines 130-524) as a function from the loop's
      variables and the values its collaborators return to the new
      variables, the trace of collaborator calls and the way the pass ends.

    Python floats are modelled by exact rationals [Q]; the loop only adds
    them and compares them with [<], [>], [>=]. Strings are byte strings
    and case conversion is the ASCII one. Collaborator calls are taken to
    return: the exceptions modelled are those the code of the file raises
    itself (the membership tests against [None] of lines 223 and 249, the
    unbound [eri_trend] of line 490, the lookup and the release of lines
    50 and 55). *)

From Stdlib Require Import Ascii String QArith Lqa.
From stdpp Require Import gmap strings list fin_maps.

Local Open Scope string_scope.

(** ** Strings *)

(** [str.upper] on ASCII letters (line 43). *)
Definition upper_ascii (c : ascii) : ascii :=
  let n := nat_of_ascii c in
  if (97 <=? n)%nat && (n <=? 122)%nat then ascii_of_nat (n - 32) else c.

Fixpoint upper (s : string) : string :=
  match s with
  | EmptyString => EmptyString
  | String c r => String (upper_ascii c) (upper r)
  end.

(** [str.lower] on ASCII letters (line 152). *)
Definition lower_ascii (c : ascii) : ascii :=
  let n := nat_of_ascii c in
  if (65 <=? n)%nat && (n <=? 90)%nat then ascii_of_nat (n + 32) else c.

Fixpoint lower (s : string) : string :=
  match s with
  | EmptyString => EmptyString
  | String c r => String (lower_ascii c) (lower r)
  end.

(** [s.split(':')[0]] (line 147): the text before the first colon. *)
Fixpoint split_colon_head (s : string) : string :=
  match s with
  | EmptyString => EmptyString
  | String c r => if Ascii.eqb c ":"%char then EmptyString
                  else String c (split_colon_head r)
  end.

(** [s.replace("/", "")] (line 170). *)
Fixpoint remove_slash (s : string) : string :=
  match s with
  | EmptyString => EmptyString
  | String c r => if Ascii.eqb c "/"%char then remove_slash r
                  else String c (remove_slash r)
  end.

(** [x in l] for a list of strings. *)
Definition str_in (x : string) (l : list string) : bool :=
  existsb (String.eqb x) l.

(** ** The lock gate of [run] *)

Module SymbolLocks.

(** Where a thread stands inside [run]. CPython may switch threads
    between any two bytecodes; the points below are statement
    boundaries of lines 47-58, so every interleaving of the model is
    one the interpreter can produce. *)
Inductive pc : Type :=
| AtCheck            (* line 47: about to test [not in symbol_locks] *)
| AtCreate           (* line 48: test was true, Lock not yet stored *)
| AtAcquire          (* line 50 *)
| Processing         (* line 53: inside run_single_symbol *)
| AtRelease          (* line 55: the finally clause, reached when
                        run_single_symbol ends, by its break or by an
                        exception *)
| Returned (processed : bool)  (* the call is over; [true]: after
                        processing, whether run returns or lets the
                        exception of run_single_symbol through *)
| Raised.            (* KeyError or RuntimeError of lines 50 and 55 *)

Record thread : Type := Thread {
  t_symbol : string;   (* the argument [symbol] *)
  t_pc : pc
}.

(** line 43 *)
Definition standardized_symbol (t : thread) : string := upper (t_symbol t).

(** The shared store: the dict [symbol_locks] maps a key to a lock
    object; [lock_heap] holds the locked flag of every Lock object
    created so far (a Lock has no owner). *)
Record world : Type := World {
  symbol_locks : gmap string nat;
  lock_heap : list bool;
  threads : list thread
}.

Definition set_pc (i : nat) (t : thread) (p : pc) (w : world) : world :=
  World (symbol_locks w) (lock_heap w)
        (<[i := Thread (t_symbol t) p]> (threads w)).

(** One step of thread [i]. [None]: there is no such thread or it has
    left [run]. The step of a thread in [Processing] is the end of
    [run_single_symbol]; a schedule need not contain it, the loop may run
    for ever. How [run_single_symbol] ends, by the [break] of line 196 or
    by an exception that the [finally] clause lets through, is not told
    apart: the Lock is released the same way and the call is over. *)
Definition step (i : nat) (w : world) : option world :=
  match threads w !! i with
  | None => None
  | Some t =>
    let key := standardized_symbol t in
    match t_pc t with
    | AtCheck =>
        match symbol_locks w !! key with
        | None => Some (set_pc i t AtCreate w)
        | Some _ => Some (set_pc i t AtAcquire w)
        end
    | AtCreate =>
        let l := length (lock_heap w) in
        Some (World (<[key := l]> (symbol_locks w))
                    (lock_heap w ++ [false])
                    (<[i := Thread (t_symbol t) AtAcquire]> (threads w)))
    | AtAcquire =>
        match symbol_locks w !! key with
        | None => Some (set_pc i t Raised w)
        | Some l =>
            match lock_heap w !! l with
            | Some false =>
                Some (World (symbol_locks w) (<[l := true]> (lock_heap w))
                            (<[i := Thread (t_symbol t) Processing]> (threads w)))
            | _ => Some (set_pc i t (Returned false) w)
            end
        end
    | Processing => Some (set_pc i t AtRelease w)
    | AtRelease =>
        match symbol_locks w !! key with
        | None => Some (set_pc i t Raised w)
        | Some l =>
            match lock_heap w !! l with
            | Some true =>
                Some (World (symbol_locks w) (<[l := false]> (lock_heap w))
                            (<[i := Thread (t_symbol t) (Returned true)]> (threads w)))
            | _ => Some (set_pc i t Raised w)
            end
        end
    | Returned _ | Raised => None
    end
  end.

(** Run a schedule: the list of thread indices in the order they step. *)
Fixpoint exec (sched : list nat) (w : world) : option world :=
  match sched with
  | [] => Some w
  | i :: rest => match step i w with
                 | None => None
                 | Some w' => exec rest w'
                 end
  end.

(** A fresh process: empty registry, every thread about to enter [run]. *)
Definition fresh (args : list string) : world :=
  World ∅ [] (map (fun a => Thread a AtCheck) args).

Fixpoint count_threads (p : thread -> bool) (l : list thread) : nat :=
  match l with
  | [] => O
  | t :: rest => (Nat.b2n (p t) + count_threads p rest)%nat
  end.

(** Threads that are inside [run_single_symbol] for the key [k]. *)
Definition is_processing (k : string) (t : thread) : bool :=
  String.eqb (standardized_symbol t) k
  && match t_pc t with Processing => true | _ => false end.

Definition processing_count (k : string) (w : world) : nat :=
  count_threads (is_processing k) (threads w).

(** Threads between a successful [acquire] and their [release]. *)
Definition holds (k : string) (t : thread) : bool :=
  String.eqb (standardized_symbol t) k
  && match t_pc t with Processing | AtRelease => true | _ => false end.

(** Threads that found the key missing and have not stored their Lock. *)
Definition creating (k : string) (t : thread) : bool :=
  String.eqb (standardized_symbol t) k
  && match t_pc t with AtCreate => true | _ => false end.

(** The key [k] has its lock object [l] in the registry, no other key
    shares it, and no thread is about to replace it. *)
Record registered (k : string) (l : nat) (w : world) : Prop := Registered {
  reg_key : symbol_locks w !! k = Some l;
  reg_own : forall k', symbol_locks w !! k' = Some l -> k' = k;
  reg_heap : forall k' l', symbol_locks w !! k' = Some l' ->
                           (l' < length (lock_heap w))%nat;
  reg_creating : count_threads (creating k) (threads w) = O;
  reg_holders : (count_threads (holds k) (threads w) <= 1)%nat;
  reg_locked : count_threads (holds k) (threads w) = 1%nat ->
               lock_heap w !! l = Some true
}.

End SymbolLocks.


(** ** Numbers *)

Local Open Scope Q_scope.
Local Open Scope list_scope.

Definition Qgtb (x y : Q) : bool := negb (Qle_bool x y).   (* x > y *)
Definition Qltb (x y : Q) : bool := negb (Qle_bool y x).   (* x < y *)
Definition Qgeb (x y : Q) : bool := Qle_bool y x.          (* x >= y *)

Definition is_some {A} (o : option A) : bool :=
  match o with Some _ => true | None => false end.

(** ** The position snapshot (lines 143-167) *)

Inductive side : Type := Long | Short.

(** [position.get('info', {})]: every key may be missing. [i_size] and
    [i_avgPrice] hold the values [float(...)] returns. *)
Record raw_info : Type := RawInfo {
  i_symbol : option string;
  i_size : option Q;
  i_side : option string;
  i_avgPrice : option Q
}.

Record side_summary : Type := SideSummary { qty : Q; avg_price : Q }.
Record symbol_summary : Type := SymbolSummary {
  long : side_summary;
  short : side_summary
}.

Definition on_side (s : side) (d : symbol_summary) : side_summary :=
  match s with Long => long d | Short => short d end.

(** line 157 *)
Definition fresh_summary : symbol_summary :=
  SymbolSummary (SideSummary 0 0) (SideSummary 0 0).

(** lines 161-162 and 164-165 *)
Definition accumulate (s : side) (size avgp : Q) (d : symbol_summary)
  : symbol_summary :=
  match s with
  | Long => SymbolSummary (SideSummary (qty (long d) + size) avgp) (short d)
  | Short => SymbolSummary (long d) (SideSummary (qty (short d) + size) avgp)
  end.

(** lines 152, 160, 163 *)
Definition side_of_string (sd : string) : option side :=
  let side := lower sd in
  if String.eqb side "buy" then Some Long
  else if String.eqb side "sell" then Some Short
  else None.

(** The body of the [for position in open_position_data] loop. *)
Definition add_position (position_details : gmap string symbol_summary)
    (info : raw_info) : gmap string symbol_summary :=
  let position_symbol := split_colon_head (default "" (i_symbol info)) in
  match i_size info, i_side info, i_avgPrice info with
  | Some size, Some sd, Some avgp =>
      let details :=
        match position_details !! position_symbol with
        | Some _ => position_details
        | None => <[position_symbol := fresh_summary]> position_details
        end in
      match side_of_string sd with
      | Some s => alter (accumulate s size avgp) position_symbol details
      | None => details
      end
  | _, _, _ => position_details
  end.

Definition build_position_details (open_position_data : list raw_info)
  : gmap string symbol_summary :=
  foldl add_position ∅ open_position_data.

(** [position_details.get(symbol, {}).get(side, {}).get('qty', 0)] *)
Definition get_qty (pd : gmap string symbol_summary) (symbol : string)
    (s : side) : Q :=
  match pd !! symbol with
  | Some d => qty (on_side s d)
  | None => 0
  end.

(** [position_details.get(symbol, {}).get(side, {}).get('avg_price', None)] *)
Definition get_avg_price (pd : gmap string symbol_summary) (symbol : string)
    (s : side) : option Q :=
  match pd !! symbol with
  | Some d => Some (avg_price (on_side s d))
  | None => None
  end.

(** ** The order book (lines 207-219) *)

Record order_book : Type := OrderBook {
  asks : option (list (Q * Q));   (* None: the key is missing *)
  bids : option (list (Q * Q))
}.

(** Either branch of lines 208-212 (asks) and 215-219 (bids): the reported
    price and the updated last-known dict. *)
Definition best_price (last_known : gmap string Q) (symbol : string)
    (levels : option (list (Q * Q))) : option Q * gmap string Q :=
  match levels with
  | Some ((p, _) :: _) => (Some p, <[symbol := p]> last_known)
  | _ => (last_known !! symbol, last_known)
  end.

(** ** The variables of the loop *)

(** [self.config] as far as the loop reads it. *)
Record config : Type := Config {
  blacklist : list string;
  test_orders_enabled : bool;
  dashboard_enabled : bool
}.

(** The local variables of [run_single_symbol] that live across passes
    (lines 64-83 and 115). [eri_trend] is bound only by line 266; [None]
    stands for "not bound yet". *)
Record locals : Type := Locals {
  min_qty : option Q;
  current_price : option Q;
  total_equity : option Q;
  available_equity : option Q;
  one_minute_volume : option Q;
  five_minute_volume : option Q;
  five_minute_distance : option Q;
  trend : option string;
  eri_trend : option string;
  long_pos_qty : Q;
  short_pos_qty : Q;
  long_upnl : Q;
  short_upnl : Q;
  cum_realised_pnl_long : Q;
  cum_realised_pnl_short : Q;
  long_pos_price : option Q;
  short_pos_price : option Q;
  last_equity_fetch_time : Q;
  previous_five_minute_distance : option Q
}.

(** lines 64-83, 115 *)
Definition initial_locals : locals :=
  Locals None None None None None None None None None
         0 0 0 0 0 0 None None 0 None.

Definition equity_refresh_interval : Q := 1800.

(** The attributes of [self] the loop reads or writes (lines 22-34). *)
Record strategy : Type := Strategy {
  last_known_ask : gmap string Q;
  last_known_bid : gmap string Q;
  next_long_tp_update : Q;
  next_short_tp_update : Q;
  last_cancel_time : Q;
  spoofing_active : bool
}.

Definition spoofing_interval : Q := 1.

(** Modelled from the spec: the exchange's resting take-profit orders of
    the symbol, one list of prices per side. The exchange layer
    ([get_open_tp_order_count], [bybit_hedge_placetp_maker],
    [update_take_profit_spread_bybit]) is not part of the source file;
    section 6 of the specification gives its contract. *)
Record exchange : Type := Exchange {
  long_tp_orders : list Q;
  short_tp_orders : list Q
}.

Definition tp_orders (s : side) (ex : exchange) : list Q :=
  match s with Long => long_tp_orders ex | Short => short_tp_orders ex end.

Definition set_tp_orders (s : side) (l : list Q) (ex : exchange) : exchange :=
  match s with
  | Long => Exchange l (short_tp_orders ex)
  | Short => Exchange (long_tp_orders ex) l
  end.

(** Modelled from the spec: [GetOpenTakeProfitOrderCounts] reports how many
    take-profit orders rest on a side. *)
Definition tp_count (s : side) (ex : exchange) : nat := length (tp_orders s ex).

(** Modelled from the spec: [PlaceTakeProfitOrder] adds one resting order. *)
Definition place_tp (s : side) (price : Q) (ex : exchange) : exchange :=
  set_tp_orders s (tp_orders s ex ++ [price]) ex.

(** Modelled from the spec: the reschedule operation may "cancel and
    reissue an existing take-profit order at a new price"; [None] when it
    leaves the order alone. *)
Definition requote_tp (s : side) (new_price : option Q) (ex : exchange)
  : exchange :=
  match new_price, tp_orders s ex with
  | Some p, _ :: rest => set_tp_orders s (p :: rest) ex
  | _, _ => ex
  end.

(** Modelled from the spec: between two reads the exchange may fill or
    cancel resting take-profit orders; nothing but the loop adds one. *)
Definition settle_tp (filled_long filled_short : nat) (ex : exchange)
  : exchange :=
  Exchange (drop filled_long (long_tp_orders ex))
           (drop filled_short (short_tp_orders ex)).

(** Modelled from the spec: [CancelAllOrders] (line 86). *)
Definition cancel_all_orders : exchange := Exchange [] [].

Record loop_state : Type := LoopState {
  loc : locals;
  self : strategy;
  exch : exchange
}.

(** ** What the collaborators return during one pass *)

Record input : Type := Input {
  in_time : Q;                              (* time.time(), line 131 *)
  in_open_position_data : list raw_info;    (* line 139 *)
  in_extracted_symbols : list string;       (* line 169 *)
  in_balance : option Q;                    (* line 180 *)
  in_available_balance : option Q;          (* line 181 *)
  in_current_price : option Q;              (* line 201 *)
  in_order_book : order_book;               (* line 203 *)
  in_trading_allowed : bool;                (* line 230 *)
  in_ma_6_high : Q;                         (* line 240 *)
  in_ma_6_low : Q;
  in_1mVol : Q;                             (* lines 258-266, 455-461 *)
  in_5mVol : Q;
  in_5mSpread : Q;
  in_Trend : string;
  in_ERI_Trend : string;
  in_min_qty : option Q;                    (* lines 296, 479 *)
  in_short_upnl : Q;                        (* lines 311-314 *)
  in_long_upnl : Q;
  in_cum_realised_long : Q;
  in_cum_realised_short : Q;
  in_short_take_profit : option Q;          (* line 323 *)
  in_long_take_profit : option Q;
  in_short_cond_ma_3 : bool;                (* lines 330, 487 *)
  in_long_cond_ma_3 : bool;                 (* lines 331, 488 *)
  in_short_cond_ma_6 : bool;                (* line 336 *)
  in_long_cond_ma_6 : bool;                 (* line 339 *)
  in_helper_last_cancel_time : Q;           (* self.last_cancel_time after line 347 *)
  in_tp_filled_long : nat;                  (* orders gone before line 377 *)
  in_tp_filled_short : nat;
  in_now : Q;                               (* datetime.now(), line 404 *)
  in_next_long_tp_update : Q;               (* line 409 *)
  in_requote_long : option Q;
  in_next_short_tp_update : Q;              (* line 426 *)
  in_requote_short : option Q
}.

(** ** The calls the loop makes *)

(** lines 497-514 *)
Record symbol_data : Type := SymbolData {
  sd_symbol : string;
  sd_min_qty : option Q;
  sd_current_price : option Q;
  sd_balance : option Q;
  sd_available_bal : option Q;
  sd_volume : option Q;
  sd_spread : option Q;
  sd_trend : option string;
  sd_long_pos_qty : Q;
  sd_short_pos_qty : Q;
  sd_long_upnl : Q;
  sd_short_upnl : Q;
  sd_long_cum_pnl : Q;
  sd_short_cum_pnl : Q;
  sd_long_pos_price : option Q;
  sd_short_pos_price : option Q
}.

Inductive event : Type :=
| EvGetAllOpenPositions
| EvGetOpenOrders
| EvGetBalance
| EvGetAvailableBalance
| EvSleep (seconds : nat)
| EvFundingCheck
| EvGetCurrentPrice
| EvGetOrderbook
| EvCanTradeNewSymbol
| EvInitializeSymbol (equity best_ask : option Q)
| EvGetAllMovingAverages
| EvGetApiData
| EvExtractMetrics
| EvGetPositions
| EvSetPositionLeverage (s : side) (pos_qty : Q) (equity : option Q)
| EvUpdateDynamicAmounts (equity : option Q)
| EvCalculateDynamicAmount (equity : option Q)
| EvPrintTradeQuantities
| EvCalculateTakeProfits (short_price long_price : option Q)
                         (five_minute : Q) (previous_five_minute : option Q)
| EvGetOpenTpOrderCount
| EvHelperv2
| EvEntryExitEri (long_qty short_qty : Q) (long_price short_price : option Q)
                 (should_long should_short : bool)
                 (should_add_to_long should_add_to_short : bool)
| EvPlaceTp (s : side) (pos_qty take_profit : Q)
| EvUpdateTakeProfitSpread (s : side) (pos_qty take_profit : Q)
                           (next_tp_update : Q)
                           (five_minute : Q) (previous_five_minute : option Q)
| EvCancelEntries
| EvInitialEntry (long_qty short_qty : Q) (should_long should_short : bool)
| EvPublish (data : symbol_data)
| EvDashboardSave
| EvUpdateSharedData.

(** How a pass through the loop body ends. *)
Inductive outcome : Type :=
| Restart    (* [continue], line 191 *)
| Stop       (* [break], line 196 *)
| Next       (* the body ran to its end, line 524 *)
| Raise.     (* an exception left the loop *)

Record result : Type := Result {
  r_state : loop_state;
  r_trace : list event;
  r_outcome : outcome
}.

(** ** One pass through the loop body *)

(** The gate of line 179. *)
Definition should_refresh_equity (current_time : Q) (l : locals) : bool :=
  Qgtb (current_time - last_equity_fetch_time l) equity_refresh_interval
  || negb (is_some (total_equity l)).

(** lines 180-182 *)
Definition with_equity (balance available : option Q) (current_time : Q)
    (l : locals) : locals :=
  {| min_qty := min_qty l; current_price := current_price l;
     total_equity := balance; available_equity := available;
     one_minute_volume := one_minute_volume l;
     five_minute_volume := five_minute_volume l;
     five_minute_distance := five_minute_distance l;
     trend := trend l; eri_trend := eri_trend l;
     long_pos_qty := long_pos_qty l; short_pos_qty := short_pos_qty l;
     long_upnl := long_upnl l; short_upnl := short_upnl l;
     cum_realised_pnl_long := cum_realised_pnl_long l;
     cum_realised_pnl_short := cum_realised_pnl_short l;
     long_pos_price := long_pos_price l; short_pos_price := short_pos_price l;
     last_equity_fetch_time := current_time;
     previous_five_minute_distance := previous_five_minute_distance l |}.

(** line 201 *)
Definition with_current_price (price : option Q) (l : locals) : locals :=
  {| min_qty := min_qty l; current_price := price;
     total_equity := total_equity l; available_equity := available_equity l;
     one_minute_volume := one_minute_volume l;
     five_minute_volume := five_minute_volume l;
     five_minute_distance := five_minute_distance l;
     trend := trend l; eri_trend := eri_trend l;
     long_pos_qty := long_pos_qty l; short_pos_qty := short_pos_qty l;
     long_upnl := long_upnl l; short_upnl := short_upnl l;
     cum_realised_pnl_long := cum_realised_pnl_long l;
     cum_realised_pnl_short := cum_realised_pnl_short l;
     long_pos_price := long_pos_price l; short_pos_price := short_pos_price l;
     last_equity_fetch_time := last_equity_fetch_time l;
     previous_five_minute_distance := previous_five_minute_distance l |}.

(** The tests of lines 395 and 400: the price to place an order at, if any. *)
Definition placement (pos_qty : Q) (take_profit : option Q) (tp_count : nat)
  : option Q :=
  match take_profit with
  | Some tp => if Qgtb pos_qty 0 && (tp_count =? 0)%nat then Some tp else None
  | None => None
  end.

(** The tests of lines 407-408 and 424-425. *)
Definition reschedule_due (pos_qty now next_tp_update : Q)
    (take_profit : option Q) : option Q :=
  if Qgtb pos_qty 0 then
    match take_profit with
    | Some tp => if Qgeb now next_tp_update then Some tp else None
    | None => None
    end
  else None.

(** lines 335-339 *)
Definition add_to_short (short_price : option Q) (ma_6_low : Q)
    (short_cond : bool) : bool :=
  match short_price with
  | Some p => Qltb p ma_6_low && short_cond
  | None => false
  end.

Definition add_to_long (long_price : option Q) (ma_6_high : Q)
    (long_cond : bool) : bool :=
  match long_price with
  | Some p => Qgtb p ma_6_high && long_cond
  | None => false
  end.

(** The first branch, lines 250-444. *)
Definition managing (cfg : config) (symbol : string) (current_time : Q)
    (position_details : gmap string symbol_summary) (best_ask_price : option Q)
    (st : loop_state) (inp : input) : result :=
  let l := loc st in
  let equity := total_equity l in
  let lq := get_qty position_details symbol Long in
  let sq := get_qty position_details symbol Short in
  let lp := get_avg_price position_details symbol Long in
  let sp := get_avg_price position_details symbol Short in
  let five := in_5mSpread inp in
  let short_take_profit := in_short_take_profit inp in
  let long_take_profit := in_long_take_profit inp in
  (* line 324: from here on the previous spread is the current one *)
  let previous := Some five in
  let should_add_to_short :=
    add_to_short sp (in_ma_6_low inp) (in_short_cond_ma_6 inp) in
  let should_add_to_long :=
    add_to_long lp (in_ma_6_high inp) (in_long_cond_ma_6 inp) in
  let spoof :=
    test_orders_enabled cfg
    && Qgeb (current_time - last_cancel_time (self st)) spoofing_interval in
  let ex1 := settle_tp (in_tp_filled_long inp) (in_tp_filled_short inp) (exch st) in
  let long_tp_count := tp_count Long ex1 in
  let short_tp_count := tp_count Short ex1 in
  let place_long := placement lq long_take_profit long_tp_count in
  let place_short := placement sq short_take_profit short_tp_count in
  let ex2 := match place_long with Some tp => place_tp Long tp ex1 | None => ex1 end in
  let ex3 := match place_short with Some tp => place_tp Short tp ex2 | None => ex2 end in
  let now := in_now inp in
  let update_long :=
    reschedule_due lq now (next_long_tp_update (self st)) long_take_profit in
  let update_short :=
    reschedule_due sq now (next_short_tp_update (self st)) short_take_profit in
  let ex4 := if is_some update_long
             then requote_tp Long (in_requote_long inp) ex3 else ex3 in
  let ex5 := if is_some update_short
             then requote_tp Short (in_requote_short inp) ex4 else ex4 in
  Result
    (LoopState
       {| min_qty := in_min_qty inp; current_price := current_price l;
          total_equity := equity; available_equity := available_equity l;
          one_minute_volume := Some (in_1mVol inp);
          five_minute_volume := Some (in_5mVol inp);
          five_minute_distance := Some five;
          trend := Some (in_Trend inp); eri_trend := Some (in_ERI_Trend inp);
          long_pos_qty := lq; short_pos_qty := sq;
          long_upnl := in_long_upnl inp; short_upnl := in_short_upnl inp;
          cum_realised_pnl_long := in_cum_realised_long inp;
          cum_realised_pnl_short := in_cum_realised_short inp;
          long_pos_price := lp; short_pos_price := sp;
          last_equity_fetch_time := last_equity_fetch_time l;
          previous_five_minute_distance := previous |}
       {| last_known_ask := last_known_ask (self st);
          last_known_bid := last_known_bid (self st);
          next_long_tp_update :=
            if is_some update_long then in_next_long_tp_update inp
            else next_long_tp_update (self st);
          next_short_tp_update :=
            if is_some update_short then in_next_short_tp_update inp
            else next_short_tp_update (self st);
          last_cancel_time :=
            if spoof then in_helper_last_cancel_time inp
            else last_cancel_time (self st);
          spoofing_active := spoof || spoofing_active (self st) |}
       ex5)
    ([EvGetApiData; EvExtractMetrics; EvGetPositions;
      EvInitializeSymbol equity best_ask_price;
      EvSetPositionLeverage Long lq equity;
      EvSetPositionLeverage Short sq equity;
      EvUpdateDynamicAmounts equity; EvCalculateDynamicAmount equity;
      EvPrintTradeQuantities;
      EvCalculateTakeProfits sp lp five (previous_five_minute_distance l);
      EvGetOpenTpOrderCount]
     ++ (if spoof then [EvHelperv2] else [])
     ++ [EvEntryExitEri lq sq lp sp
           (in_long_cond_ma_3 inp) (in_short_cond_ma_3 inp)
           should_add_to_long should_add_to_short;
         EvGetOpenTpOrderCount]
     ++ match place_long with Some tp => [EvPlaceTp Long lq tp] | None => [] end
     ++ match place_short with Some tp => [EvPlaceTp Short sq tp] | None => [] end
     ++ match update_long with
        | Some tp => [EvUpdateTakeProfitSpread Long lq tp
                        (next_long_tp_update (self st)) five previous]
        | None => []
        end
     ++ match update_short with
        | Some tp => [EvUpdateTakeProfitSpread Short sq tp
                        (next_short_tp_update (self st)) five previous]
        | None => []
        end
     ++ [EvCancelEntries; EvSleep 30])
    Next.

(** The second branch, lines 447-494. *)
Definition prospecting (symbol : string)
    (position_details : gmap string symbol_summary) (best_ask_price : option Q)
    (trading_allowed : bool) (st : loop_state) (inp : input) : result :=
  let l := loc st in
  let equity := total_equity l in
  let metrics (mq : option Q) (lq sq : Q) : locals :=
    {| min_qty := mq; current_price := current_price l;
       total_equity := equity; available_equity := available_equity l;
       one_minute_volume := Some (in_1mVol inp);
       five_minute_volume := Some (in_5mVol inp);
       five_minute_distance := Some (in_5mSpread inp);
       trend := Some (in_Trend inp); eri_trend := eri_trend l;
       long_pos_qty := lq; short_pos_qty := sq;
       long_upnl := long_upnl l; short_upnl := short_upnl l;
       cum_realised_pnl_long := cum_realised_pnl_long l;
       cum_realised_pnl_short := cum_realised_pnl_short l;
       long_pos_price := long_pos_price l; short_pos_price := short_pos_price l;
       last_equity_fetch_time := last_equity_fetch_time l;
       previous_five_minute_distance := previous_five_minute_distance l |} in
  if trading_allowed then
    let lq := get_qty position_details symbol Long in
    let sq := get_qty position_details symbol Short in
    let calls :=
      [EvGetApiData; EvExtractMetrics;
       EvInitializeSymbol equity best_ask_price;
       EvSetPositionLeverage Long (long_pos_qty l) equity;
       EvSetPositionLeverage Short (short_pos_qty l) equity;
       EvUpdateDynamicAmounts equity; EvCalculateDynamicAmount equity;
       EvGetPositions] in
    let st' := LoopState (metrics (in_min_qty inp) lq sq) (self st) (exch st) in
    match eri_trend l with
    | None => Result st' calls Raise       (* line 490: eri_trend is unbound *)
    | Some _ =>
        Result st'
          (calls ++ [EvInitialEntry lq sq (in_long_cond_ma_3 inp)
                       (in_short_cond_ma_3 inp);
                     EvSleep 10])
          Next
    end
  else
    Result (LoopState (metrics (min_qty l) (long_pos_qty l) (short_pos_qty l))
                      (self st) (exch st))
           [EvGetApiData; EvExtractMetrics] Next.

(** lines 497-514 *)
Definition status_record (symbol : string) (l : locals) : symbol_data :=
  {| sd_symbol := symbol; sd_min_qty := min_qty l;
     sd_current_price := current_price l; sd_balance := total_equity l;
     sd_available_bal := available_equity l;
     sd_volume := five_minute_volume l; sd_spread := five_minute_distance l;
     sd_trend := trend l;
     sd_long_pos_qty := long_pos_qty l; sd_short_pos_qty := short_pos_qty l;
     sd_long_upnl := long_upnl l; sd_short_upnl := short_upnl l;
     sd_long_cum_pnl := cum_realised_pnl_long l;
     sd_short_cum_pnl := cum_realised_pnl_short l;
     sd_long_pos_price := long_pos_price l;
     sd_short_pos_price := short_pos_price l |}.

(** lines 516-524. The calls are taken to return: an exception inside
    [deepcopy], [open], [json.dump] or [update_shared_data], after the
    record of line 516 is written, is not modelled. *)
Definition publish (cfg : config) (symbol : string) (l : locals) : list event :=
  [EvPublish (status_record symbol l)]
  ++ (if dashboard_enabled cfg then [EvDashboardSave; EvUpdateSharedData] else [])
  ++ [EvSleep 30].

(** Which branch lines 249 and 446 select. *)
Inductive branch : Type := Managing | Prospecting | Skip.

Definition select_branch (in_rotator in_open trading_allowed : bool) : branch :=
  if in_rotator || (in_open || trading_allowed) then Managing
  else if in_rotator && negb in_open && trading_allowed then Prospecting
  else Skip.

(** The locals after the equity step of lines 179-182. *)
Definition after_equity_step (st : loop_state) (inp : input) : locals :=
  if should_refresh_equity (in_time inp) (loc st)
  then with_equity (in_balance inp) (in_available_balance inp) (in_time inp) (loc st)
  else loc st.

(** lines 201-219: the current price, the best ask and bid with their
    last-known fallback. *)
Definition read_market (symbol : string) (st : loop_state) (inp : input)
  : option Q * option Q * loop_state :=
  let ask := best_price (last_known_ask (self st)) symbol
                        (asks (in_order_book inp)) in
  let bid := best_price (last_known_bid (self st)) symbol
                        (bids (in_order_book inp)) in
  (fst ask, fst bid,
   LoopState (with_current_price (in_current_price inp) (after_equity_step st inp))
             {| last_known_ask := snd ask; last_known_bid := snd bid;
                next_long_tp_update := next_long_tp_update (self st);
                next_short_tp_update := next_short_tp_update (self st);
                last_cancel_time := last_cancel_time (self st);
                spoofing_active := spoofing_active (self st) |}
             (exch st)).

Definition best_ask_of (m : option Q * option Q * loop_state) : option Q :=
  fst (fst m).

Definition state_of (m : option Q * option Q * loop_state) : loop_state :=
  snd m.

(** The body of [while True] (lines 131-524). [rotator] is the argument
    [rotator_symbols_standardized], [None] by default. *)
Definition iteration (cfg : config) (symbol : string)
    (rotator : option (list string)) (st : loop_state) (inp : input) : result :=
  let current_time := in_time inp in
  let position_details := build_position_details (in_open_position_data inp) in
  let open_symbols := map remove_slash (in_extracted_symbols inp) in
  let refresh := should_refresh_equity current_time (loc st) in
  let l1 := after_equity_step st inp in
  let tr1 := [EvGetAllOpenPositions; EvGetOpenOrders]
             ++ (if refresh then [EvGetBalance; EvGetAvailableBalance] else []) in
  if refresh && negb (is_some (total_equity l1)) then
    Result (LoopState l1 (self st) (exch st)) (tr1 ++ [EvSleep 10]) Restart
  else if str_in symbol (blacklist cfg) then
    Result (LoopState l1 (self st) (exch st)) tr1 Stop
  else
    let m := read_market symbol st inp in
    let best_ask_price := best_ask_of m in
    let st2 := state_of m in
    let tr2 := tr1 ++ [EvFundingCheck; EvGetCurrentPrice; EvGetOrderbook] in
    let tr3 := tr2 ++ [EvCanTradeNewSymbol;
                       EvInitializeSymbol (total_equity (loc st2)) best_ask_price;
                       EvGetAllMovingAverages; EvSleep 10] in
    match rotator with
    | None =>
        (* [s not in None] at line 223, else [symbol in None] at line 249 *)
        match open_symbols with
        | _ :: _ => Result st2 tr2 Raise
        | [] => Result st2 tr3 Raise
        end
    | Some rotator_symbols_standardized =>
        let trading_allowed := in_trading_allowed inp in
        let r :=
          match select_branch (str_in symbol rotator_symbols_standardized)
                              (str_in symbol open_symbols) trading_allowed with
          | Managing =>
              managing cfg symbol current_time position_details
                       best_ask_price st2 inp
          | Prospecting =>
              prospecting symbol position_details best_ask_price
                          trading_allowed st2 inp
          | Skip => Result st2 [] Next
          end in
        match r_outcome r with
        | Next =>
            Result (r_state r)
                   (tr3 ++ r_trace r ++ publish cfg symbol (loc (r_state r)))
                   Next
        | o => Result (r_state r) (tr3 ++ r_trace r) o
        end
    end.

(** The loop over the passes whose collaborator results are given; it
    ends early on [break] or on an exception. *)
Fixpoint loop (cfg : config) (symbol : string) (rotator : option (list string))
    (st : loop_state) (inputs : list input) : result :=
  match inputs with
  | [] => Result st [] Next
  | inp :: rest =>
      let r := iteration cfg symbol rotator st inp in
      match r_outcome r with
      | Stop | Raise => r
      | Restart | Next =>
          let r' := loop cfg symbol rotator (r_state r) rest in
          Result (r_state r') (r_trace r ++ r_trace r') (r_outcome r')
      end
  end.

(** The state before the first pass: the locals of lines 64-83 and 115,
    the strategy object as it is, no resting order after line 86. *)
Definition start (s : strategy) : loop_state :=
  LoopState initial_locals s cancel_all_orders.

(** * Notions used in the statements *)

(** ** Snapshot *)

(** The opposite side. *)
Definition other (s : side) : side :=
  match s with Long => Short | Short => Long end.

Definition side_eqb (s s' : side) : bool :=
  match s, s' with
  | Long, Long | Short, Short => true
  | _, _ => false
  end.

(** The record is complete, is for [symbol] and counts on side [s]. *)
Definition hits (symbol : string) (s : side) (info : raw_info) : bool :=
  match i_size info, i_side info, i_avgPrice info with
  | Some _, Some sd, Some _ =>
      String.eqb (split_colon_head (default "" (i_symbol info))) symbol
      && match side_of_string sd with
         | Some s' => side_eqb s s'
         | None => false
         end
  | _, _, _ => false
  end.

(** "An entry with quantity 0 has no average price." *)
Definition absent_when_flat (pd : gmap string symbol_summary)
    (symbol : string) (s : side) : Prop :=
  get_qty pd symbol s == 0 -> get_avg_price pd symbol s = None.

(** ** Order book *)

(** The live top of a side of the book, if the side is there and not
    empty. *)
Definition top_of_book (levels : option (list (Q * Q))) : option Q :=
  match levels with
  | Some ((p, _) :: _) => Some p
  | _ => None
  end.

(** The most recently observed live value among the books of earlier
    passes, oldest first. *)
Definition last_live (earlier : list (option (list (Q * Q)))) : option Q :=
  last (omap top_of_book earlier).

(** The last-known dict after the passes that saw [earlier]. *)
Definition remember (last_known : gmap string Q) (symbol : string)
    (earlier : list (option (list (Q * Q)))) : gmap string Q :=
  foldl (fun lk levels => snd (best_price lk symbol levels)) last_known earlier.

(** Whether a pass gets as far as reading the order book (line 203). *)
Definition reaches_book (cfg : config) (symbol : string) (st : loop_state)
    (inp : input) : bool :=
  negb (should_refresh_equity (in_time inp) (loc st)
        && negb (is_some (total_equity (after_equity_step st inp))))
  && negb (str_in symbol (blacklist cfg)).

(** The order books the passes of [loop] read, oldest first. *)
Fixpoint seen_books (cfg : config) (symbol : string)
    (rotator : option (list string)) (st : loop_state) (inputs : list input)
  : list order_book :=
  match inputs with
  | [] => []
  | inp :: rest =>
      (if reaches_book cfg symbol st inp then [in_order_book inp] else [])
      ++ match r_outcome (iteration cfg symbol rotator st inp) with
         | Stop | Raise => []
         | Restart | Next =>
             seen_books cfg symbol rotator
                        (r_state (iteration cfg symbol rotator st inp)) rest
         end
  end.

(** ** Traces *)

Fixpoint count_events (p : event -> bool) (tr : list event) : nat :=
  match tr with
  | [] => O
  | e :: rest => ((if p e then 1 else 0) + count_events p rest)%nat
  end.

Definition is_equity_fetch (e : event) : bool :=
  match e with EvGetBalance => true | _ => false end.

Definition is_initial_entry (e : event) : bool :=
  match e with EvInitialEntry _ _ _ _ => true | _ => false end.

Definition is_entry_exit (e : event) : bool :=
  match e with EvEntryExitEri _ _ _ _ _ _ _ _ => true | _ => false end.

(** Order placement, take-profit maintenance, branch work and publication:
    everything after the equity step. *)
Definition is_trading_action (e : event) : bool :=
  match e with
  | EvGetAllOpenPositions | EvGetOpenOrders | EvGetBalance
  | EvGetAvailableBalance | EvSleep _ => false
  | _ => true
  end.

(** ** Sample data *)

Definition sample_config : config := Config [] false false.

Definition sample_strategy : strategy := Strategy ∅ ∅ 50 50 0 false.

Definition sample_book : order_book :=
  OrderBook (Some [(100, 1)]) (Some [(99, 1)]).

Definition long_position : raw_info :=
  RawInfo (Some "BTCUSDT") (Some 1) (Some "Buy") (Some 100).

(** The collaborator results of one pass at time [t]; [now] is the clock of
    line 404. *)
Definition sample_input (t : Q) (positions : list raw_info)
    (open_symbols : list string) (balance : option Q) (allowed : bool)
    (spread : Q) (long_tp : option Q) (now : Q) : input :=
  {| in_time := t; in_open_position_data := positions;
     in_extracted_symbols := open_symbols;
     in_balance := balance; in_available_balance := balance;
     in_current_price := Some 100; in_order_book := sample_book;
     in_trading_allowed := allowed;
     in_ma_6_high := 101; in_ma_6_low := 99;
     in_1mVol := 5; in_5mVol := 6; in_5mSpread := spread;
     in_Trend := "long"; in_ERI_Trend := "bullish"; in_min_qty := Some 1;
     in_short_upnl := 0; in_long_upnl := 0;
     in_cum_realised_long := 0; in_cum_realised_short := 0;
     in_short_take_profit := None; in_long_take_profit := long_tp;
     in_short_cond_ma_3 := false; in_long_cond_ma_3 := true;
     in_short_cond_ma_6 := true; in_long_cond_ma_6 := false;
     in_helper_last_cancel_time := 0;
     in_tp_filled_long := 0; in_tp_filled_short := 0;
     in_now := now;
     in_next_long_tp_update := now + 60; in_requote_long := None;
     in_next_short_tp_update := now + 60; in_requote_short := None |}.

(** A loop whose equity was fetched at time 10. *)
Definition funded_state : loop_state :=
  LoopState (with_equity (Some 1000) (Some 1000) 10 initial_locals)
            sample_strategy cancel_all_orders.

Definition two_passes : list input :=
  [sample_input 10 [long_position] ["BTCUSDT"] (Some 1000) true 1 (Some 105) 20;
   sample_input 50 [long_position] ["BTCUSDT"] (Some 1000) true 2 (Some 106) 100].

(** ** Take-profit orders *)

Definition is_tp_action (e : event) : bool :=
  match e with
  | EvPlaceTp _ _ _ | EvUpdateTakeProfitSpread _ _ _ _ _ _ => true
  | _ => false
  end.

Definition take_profit_of (s : side) (inp : input) : option Q :=
  match s with
  | Long => in_long_take_profit inp
  | Short => in_short_take_profit inp
  end.

Definition next_tp_update_of (s : side) (x : strategy) : Q :=
  match s with
  | Long => next_long_tp_update x
  | Short => next_short_tp_update x
  end.

(** The exchange as line 377 finds it. *)
Definition exchange_at_count (st : loop_state) (inp : input) : exchange :=
  settle_tp (in_tp_filled_long inp) (in_tp_filled_short inp) (exch st).

(** ** Records and totals *)

(** The key a record is filed under (line 147). *)
Definition record_symbol (info : raw_info) : string :=
  split_colon_head (default "" (i_symbol info)).

(** The test of line 150. *)
Definition complete (info : raw_info) : bool :=
  is_some (i_size info) && is_some (i_side info) && is_some (i_avgPrice info).

Definition complete_for (symbol : string) (info : raw_info) : bool :=
  complete info && String.eqb (record_symbol info) symbol.

(** The size and the price a record brings to side [s] of [symbol]. *)
Definition contribution (symbol : string) (s : side) (info : raw_info)
  : option (Q * Q) :=
  if hits symbol s info then
    match i_size info, i_avgPrice info with
    | Some size, Some avgp => Some (size, avgp)
    | _, _ => None
    end
  else None.

(** The sizes of the records of a side, added up in list order from the
    [0] of line 157. *)
Definition total_qty (symbol : string) (s : side) (records : list raw_info) : Q :=
  foldl (fun acc r => match contribution symbol s r with
                      | Some (size, _) => acc + size
                      | None => acc
                      end) 0 records.

(** The price of the last record of a side, [0] if there is none. *)
Definition last_price (symbol : string) (s : side) (records : list raw_info) : Q :=
  foldl (fun acc r => match contribution symbol s r with
                      | Some (_, avgp) => avgp
                      | None => acc
                      end) 0 records.

(** Three long records, a short one, one of another symbol and one without
    a size. *)
Definition mixed_records : list raw_info :=
  [RawInfo (Some "BTCUSDT:USDT") (Some 3) (Some "Buy") (Some 100);
   RawInfo (Some "ETHUSDT") (Some 7) (Some "Buy") (Some 2000);
   RawInfo (Some "BTCUSDT") None (Some "Buy") (Some 55);
   RawInfo (Some "BTCUSDT") (Some 2) (Some "BUY") (Some 90);
   RawInfo (Some "BTCUSDT") (Some 4) (Some "Sell") (Some 95);
   RawInfo (Some "BTCUSDT") (Some 1) (Some "buy") (Some 80)].

(** ** Kinds of calls *)

Definition is_publish (e : event) : bool :=
  match e with EvPublish _ => true | _ => false end.

Definition is_helper (e : event) : bool :=
  match e with EvHelperv2 => true | _ => false end.

(** The calls made from line 250 on: the branches and the publication. *)
Definition after_branch_test (e : event) : bool :=
  match e with
  | EvGetAllOpenPositions | EvGetOpenOrders | EvGetBalance
  | EvGetAvailableBalance | EvSleep _ | EvFundingCheck | EvGetCurrentPrice
  | EvGetOrderbook | EvCanTradeNewSymbol | EvInitializeSymbol _ _
  | EvGetAllMovingAverages => false
  | _ => true
  end.

(** The calls of a branch, the publication apart. *)
Definition is_branch_call (e : event) : bool :=
  after_branch_test e
  && match e with
     | EvPublish _ | EvDashboardSave | EvUpdateSharedData => false
     | _ => true
     end.

(** The seconds a trace sleeps. *)
Fixpoint sleep_total (tr : list event) : nat :=
  match tr with
  | [] => O
  | EvSleep n :: rest => (n + sleep_total rest)%nat
  | _ :: rest => sleep_total rest
  end.

(** The equity a call is handed, for the calls that are handed one; for
    the publication, the balance of the record. *)
Definition event_equity (e : event) : option (option Q) :=
  match e with
  | EvInitializeSymbol equity _ | EvSetPositionLeverage _ _ equity
  | EvUpdateDynamicAmounts equity | EvCalculateDynamicAmount equity =>
      Some equity
  | EvPublish data => Some (sd_balance data)
  | _ => None
  end.

(** ** A new strategy object *)

(** The attributes [__init__] (lines 21-34) gives a new object, as far as
    the loop uses them; the two arguments are what
    [calculate_next_update_time] returns at lines 28 and 29. *)
Definition new_strategy (next_long next_short : Q) : strategy :=
  {| last_known_ask := ∅; last_known_bid := ∅;
     next_long_tp_update := next_long; next_short_tp_update := next_short;
     last_cancel_time := 0; spoofing_active := false |}.

(** The bid a pass reads (lines 215-219). *)
Definition best_bid_of (m : option Q * option Q * loop_state) : option Q :=
  snd (fst m).

(** ** The registry *)

(** A thread that has got past lines 47-48. *)
Definition past_check (p : SymbolLocks.pc) : bool :=
  match p with
  | SymbolLocks.AtAcquire | SymbolLocks.Processing | SymbolLocks.AtRelease => true
  | _ => false
  end.

(** Every registered lock object exists, and every thread past lines 47-48
    has its key in the registry. *)
Record sound (w : SymbolLocks.world) : Prop := Sound {
  sound_heap : forall k l, SymbolLocks.symbol_locks w !! k = Some l ->
                           (l < length (SymbolLocks.lock_heap w))%nat;
  sound_keys : forall j t, SymbolLocks.threads w !! j = Some t ->
                           past_check (SymbolLocks.t_pc t) = true ->
                           is_Some (SymbolLocks.symbol_locks w
                                      !! SymbolLocks.standardized_symbol t)
}.

(** A registry with the one key BTCUSDT, its lock free, and two callers. *)
Definition registered_world : SymbolLocks.world :=
  SymbolLocks.World {["BTCUSDT" := O]} [false]
    [SymbolLocks.Thread "btcusdt" SymbolLocks.AtCheck;
     SymbolLocks.Thread "BTCUSDT" SymbolLocks.AtCheck].

(** ** Proof steps *)

(** Case analysis on the optional parts of a trace. *)
Ltac split_trace :=
  repeat match goal with
         | |- context [match ?x with Some _ => _ | None => _ end] => destruct x
         | |- context [if ?b then _ else _] => destruct b
         end.

(** Membership of an event in a trace given piece by piece. *)
Ltac in_trace H :=
  rewrite ?in_app_iff in H; simpl in H;
  intuition (subst; try discriminate).

(** Point at an event of a computed trace. *)
Ltac find_event := repeat (first [left; reflexivity | right]).

(** The fields of [registered] after a step that leaves the counts of
    holders and creators as they are or lowers them. *)
Ltac registered_fields Hlk :=
  constructor;
  cbn [SymbolLocks.symbol_locks SymbolLocks.lock_heap SymbolLocks.threads
       SymbolLocks.t_symbol];
  auto; try lia;
  try (intros ?; first [apply Hlk; lia | assumption | lia]);
  try (intros ? ? ?; rewrite length_insert; eauto).

(** The events of a trace that carry an equity. *)
Ltac equity_events H He :=
  rewrite ?in_app_iff in H; simpl in H;
  repeat (destruct H as [H|H]); try contradiction;
  subst; simpl in He; try discriminate He;
  try (injection He as <-; reflexivity).

(** * Properties *)

(** ** Comparisons *)

Lemma Qgtb_true (x y : Q) : Qgtb x y = true <-> y < x.
Proof.
  unfold Qgtb. rewrite negb_true_iff, <- not_true_iff_false, Qle_bool_iff.
  split; [apply Qnot_le_lt | apply Qlt_not_le].
Qed.

Lemma Qgtb_false (x y : Q) : Qgtb x y = false <-> x <= y.
Proof. unfold Qgtb. rewrite negb_false_iff. apply Qle_bool_iff. Qed.

Lemma Qgeb_true (x y : Q) : Qgeb x y = true <-> y <= x.
Proof. apply Qle_bool_iff. Qed.

(** Adding to the integer [0] of line 157 gives the number itself, also as
    a fraction. *)
Lemma Qplus_0_l_eq (q : Q) : 0 + q = q.
Proof.
  destruct q as [n d]. unfold Qplus. simpl. now rewrite Z.mul_1_r.
Qed.

(** ** The position snapshot *)

Section Snapshot.

Implicit Types (pd : gmap string symbol_summary) (s : side).

Lemma on_side_accumulate s size avgp d :
  on_side s (accumulate s size avgp d)
  = SideSummary (qty (on_side s d) + size) avgp.
Proof. now destruct s. Qed.

Lemma on_side_accumulate_other s size avgp d :
  on_side (other s) (accumulate s size avgp d) = on_side (other s) d.
Proof. now destruct s. Qed.

(** A complete record for side [s]: what the loop body does to the entry
    of its symbol. *)
Lemma add_position_lookup pd sym size sd avgp s :
  side_of_string sd = Some s ->
  add_position pd (RawInfo (Some sym) (Some size) (Some sd) (Some avgp))
    !! split_colon_head sym
  = Some (accumulate s size avgp
            (default fresh_summary (pd !! split_colon_head sym))).
Proof.
  intros Hs. unfold add_position. simpl. rewrite Hs.
  destruct (pd !! split_colon_head sym) as [d|] eqn:E.
  - rewrite lookup_alter_eq, E. reflexivity.
  - rewrite lookup_alter_eq, lookup_insert_eq. reflexivity.
Qed.

End Snapshot.

(** C4. Two raw records of one symbol (contract suffix apart) and one side,
    with quantities [q1], [q2] and average prices [p1], [p2], processed in
    that order, give a snapshot whose entry for that symbol and side has
    quantity [q1 + q2] and average price [p2]: the last price wins, it is
    not volume-weighted. (The quantities need not even be non-negative.) *)
Theorem snapshot_accumulation
    (sym1 sym2 sd1 sd2 : string) (s : side) (q1 q2 p1 p2 : Q) :
  split_colon_head sym2 = split_colon_head sym1 ->
  side_of_string sd1 = Some s ->
  side_of_string sd2 = Some s ->
  let pd := build_position_details
              [RawInfo (Some sym1) (Some q1) (Some sd1) (Some p1);
               RawInfo (Some sym2) (Some q2) (Some sd2) (Some p2)] in
  on_side s <$> pd !! split_colon_head sym1 = Some (SideSummary (q1 + q2) p2)
  /\ get_qty pd (split_colon_head sym1) s = q1 + q2
  /\ get_avg_price pd (split_colon_head sym1) s = Some p2.
Proof.
  intros Hsym H1 H2 pd.
  assert (E : pd !! split_colon_head sym1
              = Some (accumulate s q2 p2 (accumulate s q1 p1 fresh_summary))).
  { subst pd. unfold build_position_details. simpl foldl.
    rewrite <- Hsym.
    rewrite (add_position_lookup _ sym2 q2 sd2 p2 s H2).
    rewrite Hsym.
    rewrite (add_position_lookup _ sym1 q1 sd1 p1 s H1).
    rewrite lookup_empty. reflexivity. }
  unfold get_qty, get_avg_price. rewrite E. simpl.
  rewrite !on_side_accumulate. simpl.
  assert (Z : qty (on_side s fresh_summary) = 0) by now destruct s.
  rewrite Z, Qplus_0_l_eq. auto.
Qed.

Lemma snapshot_accumulation_witness :
  get_qty (build_position_details
             [RawInfo (Some "BTCUSDT:USDT") (Some 3) (Some "Buy") (Some 100);
              RawInfo (Some "BTCUSDT") (Some 2) (Some "buy") (Some 90)])
          "BTCUSDT" Long = 3 + 2
  /\ get_avg_price (build_position_details
             [RawInfo (Some "BTCUSDT:USDT") (Some 3) (Some "Buy") (Some 100);
              RawInfo (Some "BTCUSDT") (Some 2) (Some "buy") (Some 90)])
          "BTCUSDT" Long = Some 90.
Proof.
  pose proof (snapshot_accumulation "BTCUSDT:USDT" "BTCUSDT" "Buy" "buy" Long
                3 2 100 90 eq_refl eq_refl eq_refl) as H.
  exact (proj2 H).
Defined.

(** A side that received no record sits next to one that did: its quantity
    is the [0] of line 157 and so is its average price. *)
Lemma untouched_side_zero (sym sd : string) (s : side) (q p : Q) :
  side_of_string sd = Some s ->
  let pd := build_position_details
              [RawInfo (Some sym) (Some q) (Some sd) (Some p)] in
  get_qty pd (split_colon_head sym) (other s) = 0
  /\ get_avg_price pd (split_colon_head sym) (other s) = Some 0.
Proof.
  intros Hs pd. subst pd. unfold build_position_details, get_qty, get_avg_price.
  simpl foldl. rewrite (add_position_lookup _ sym q sd p s Hs), lookup_empty.
  simpl. rewrite on_side_accumulate_other. now destruct s.
Qed.

(** A symbol none of whose records is complete has no entry at all: there
    the price read at lines 317-318 is [None]. *)
Lemma absent_symbol_no_price (symbol : string) (s : side) :
  get_qty (build_position_details []) symbol s = 0
  /\ get_avg_price (build_position_details []) symbol s = None.
Proof.
  unfold build_position_details, get_qty, get_avg_price. simpl.
  now rewrite lookup_empty.
Qed.

Lemma add_position_untouched (pd : gmap string symbol_summary)
    (symbol : string) (s : side) (info : raw_info) :
  hits symbol s info = false ->
  (forall d, pd !! symbol = Some d -> on_side s d = SideSummary 0 0) ->
  forall d, add_position pd info !! symbol = Some d ->
            on_side s d = SideSummary 0 0.
Proof.
  intros Hhit Hpd d. unfold add_position, hits in *.
  destruct (i_size info) as [size|]; [|apply Hpd].
  destruct (i_side info) as [sd|]; [|apply Hpd].
  destruct (i_avgPrice info) as [avgp|]; [|apply Hpd].
  set (k := split_colon_head (default "" (i_symbol info))) in *.
  set (details := match pd !! k with Some _ => pd | None => <[k:=fresh_summary]> pd end).
  assert (Hdet : forall d', details !! symbol = Some d' ->
                            on_side s d' = SideSummary 0 0).
  { intros d'. subst details. destruct (pd !! k) eqn:E; [apply Hpd|].
    destruct (decide (k = symbol)) as [->|Hne].
    - rewrite lookup_insert_eq. intros [= <-]. now destruct s.
    - rewrite lookup_insert_ne; auto. }
  destruct (side_of_string sd) as [s'|]; [|apply Hdet].
  destruct (decide (k = symbol)) as [Hk|Hne].
  - rewrite Hk, lookup_alter_eq.
    destruct (details !! symbol) as [d0|] eqn:E0; [|discriminate].
    intros [= <-]. specialize (Hdet d0 eq_refl).
    apply String.eqb_eq in Hk. rewrite Hk in Hhit. simpl in Hhit.
    destruct s, s'; try discriminate; exact Hdet.
  - rewrite lookup_alter_ne; auto.
Qed.

Lemma build_untouched (records : list raw_info) (symbol : string) (s : side) :
  Forall (fun r => hits symbol s r = false) records ->
  forall pd,
    (forall d, pd !! symbol = Some d -> on_side s d = SideSummary 0 0) ->
    forall d, foldl add_position pd records !! symbol = Some d ->
              on_side s d = SideSummary 0 0.
Proof.
  induction 1 as [|r rest Hr _ IH]; intros pd Hpd; [exact Hpd|].
  simpl. apply IH. now apply add_position_untouched.
Qed.

(** One open long position of BTCUSDT and no short one give a short side
    with quantity 0 whose average price is there. *)
Lemma zero_quantity_side_has_a_price :
  ~ absent_when_flat (build_position_details [long_position]) "BTCUSDT" Short.
Proof.
  unfold absent_when_flat. intros H.
  assert (E : get_qty (build_position_details [long_position]) "BTCUSDT" Short == 0)
    by reflexivity.
  specialize (H E). vm_compute in H. discriminate.
Qed.

(** The same for every list of records: the average price of a side is
    absent exactly when the symbol has no entry; a side of an entry that
    received no complete record has quantity 0 and the number 0 of line 157
    as its average price, and the presence test of line 335 lets it
    through. *)
Theorem flat_side_price_is_zero
    (records : list raw_info) (symbol : string) (s : side) :
  let pd := build_position_details records in
  (get_avg_price pd symbol s = None <-> pd !! symbol = None)
  /\ (Forall (fun r => hits symbol s r = false) records ->
      pd !! symbol <> None ->
      get_qty pd symbol s = 0
      /\ get_avg_price pd symbol s = Some 0
      /\ forall ma_6_low cond,
           add_to_short (get_avg_price pd symbol s) ma_6_low cond
           = Qltb 0 ma_6_low && cond).
Proof.
  intros pd. split.
  - unfold get_avg_price. destruct (pd !! symbol); intuition discriminate.
  - intros Hall Hentry.
    destruct (pd !! symbol) as [d|] eqn:E; [|contradiction].
    assert (Hd : on_side s d = SideSummary 0 0).
    { apply (build_untouched records symbol s Hall ∅); [|exact E].
      intros d'. now rewrite lookup_empty. }
    unfold get_qty, get_avg_price. rewrite E, Hd. auto.
Qed.

Lemma flat_side_price_is_zero_witness :
  get_qty (build_position_details [long_position]) "BTCUSDT" Short = 0
  /\ get_avg_price (build_position_details [long_position]) "BTCUSDT" Short
     = Some 0.
Proof.
  destruct (proj2 (flat_side_price_is_zero [long_position] "BTCUSDT" Short))
    as (Hq & Hp & _).
  - repeat constructor.
  - vm_compute. discriminate.
  - split; [exact Hq | exact Hp].
Defined.

(** C6. One pass over one open long position of BTCUSDT and no short one.
    A symbol without an entry has no position price ([None], lines 317-318),
    but here the short side, of quantity 0, has the number 0 of line 157 as
    its average price: the [is not None] test of line 335 lets it through,
    and the entry/exit collaborator is called with [should_add_to_short]
    true for a side that holds nothing. *)
Theorem flat_short_side_has_price_zero :
  let pd := build_position_details [long_position] in
  let r := iteration sample_config "BTCUSDT" (Some ["BTCUSDT"])
                     (start sample_strategy)
                     (sample_input 10 [long_position] ["BTCUSDT"] (Some 1000)
                                   true 2 None 100) in
  get_avg_price (build_position_details []) "BTCUSDT" Short = None
  /\ get_qty pd "BTCUSDT" Short = 0
  /\ get_avg_price pd "BTCUSDT" Short = Some 0
  /\ add_to_short (get_avg_price pd "BTCUSDT" Short) 99 true = true
  /\ In (EvEntryExitEri 1 0 (Some 100) (Some 0) true false false true)
        (r_trace r).
Proof.
  vm_compute. repeat split; find_event.
Qed.

(** ** The order book *)

Section OrderBook.

Implicit Types (last_known : gmap string Q)
               (levels : option (list (Q * Q))).

Lemma best_price_live last_known symbol levels p :
  top_of_book levels = Some p ->
  best_price last_known symbol levels = (Some p, <[symbol := p]> last_known).
Proof.
  destruct levels as [[|[p' sz] rest]|]; simpl; try discriminate.
  now intros [= ->].
Qed.

Lemma best_price_empty last_known symbol levels :
  top_of_book levels = None ->
  best_price last_known symbol levels = (last_known !! symbol, last_known).
Proof. now destruct levels as [[|[p' sz] rest]|]. Qed.

Lemma remember_lookup last_known symbol earlier :
  remember last_known symbol earlier !! symbol
  = match last_live earlier with
    | Some p => Some p
    | None => last_known !! symbol
    end.
Proof.
  unfold remember, last_live.
  induction earlier as [|levels earlier IH] using rev_ind; [reflexivity|].
  rewrite foldl_app, omap_app. simpl.
  destruct (top_of_book levels) as [p|] eqn:E.
  - rewrite (best_price_live _ _ _ _ E). simpl.
    now rewrite last_snoc, lookup_insert_eq.
  - rewrite (best_price_empty _ _ _ E). simpl.
    now rewrite app_nil_r.
Qed.

End OrderBook.



(** ** Traces *)

Lemma count_events_app p tr1 tr2 :
  count_events p (tr1 ++ tr2) = (count_events p tr1 + count_events p tr2)%nat.
Proof. induction tr1 as [|e tr1 IH]; simpl; [reflexivity | lia]. Qed.

(** ** The branches *)

Lemma select_branch_not_prospecting (in_rotator in_open trading_allowed : bool) :
  select_branch in_rotator in_open trading_allowed <> Prospecting.
Proof. now destruct in_rotator, in_open, trading_allowed. Qed.

Lemma managing_outcome cfg symbol t pd ask st inp :
  r_outcome (managing cfg symbol t pd ask st inp) = Next.
Proof. reflexivity. Qed.

Lemma managing_equity cfg symbol t pd ask st inp :
  total_equity (loc (r_state (managing cfg symbol t pd ask st inp)))
  = total_equity (loc st)
  /\ last_equity_fetch_time (loc (r_state (managing cfg symbol t pd ask st inp)))
     = last_equity_fetch_time (loc st).
Proof. split; reflexivity. Qed.

Lemma prospecting_equity symbol pd ask allowed st inp :
  total_equity (loc (r_state (prospecting symbol pd ask allowed st inp)))
  = total_equity (loc st)
  /\ last_equity_fetch_time (loc (r_state (prospecting symbol pd ask allowed st inp)))
     = last_equity_fetch_time (loc st).
Proof.
  unfold prospecting. destruct allowed; [destruct (eri_trend (loc st))|];
    split; reflexivity.
Qed.

Lemma managing_count cfg symbol t pd ask st inp :
  count_events is_equity_fetch (r_trace (managing cfg symbol t pd ask st inp)) = O
  /\ count_events is_initial_entry (r_trace (managing cfg symbol t pd ask st inp)) = O
  /\ count_events is_entry_exit (r_trace (managing cfg symbol t pd ask st inp)) = 1%nat.
Proof.
  unfold managing. cbn [r_trace].
  repeat split; rewrite !count_events_app; split_trace; reflexivity.
Qed.

Lemma prospecting_count symbol pd ask allowed st inp :
  count_events is_equity_fetch (r_trace (prospecting symbol pd ask allowed st inp)) = O.
Proof.
  unfold prospecting. destruct allowed; [destruct (eri_trend (loc st))|];
    reflexivity.
Qed.

(** ** The equity step *)

Lemma iteration_equity cfg symbol rot st inp :
  total_equity (loc (r_state (iteration cfg symbol rot st inp)))
  = total_equity (after_equity_step st inp)
  /\ last_equity_fetch_time (loc (r_state (iteration cfg symbol rot st inp)))
     = last_equity_fetch_time (after_equity_step st inp).
Proof.
  unfold iteration, after_equity_step.
  set (l1 := if should_refresh_equity _ _ then _ else _).
  destruct (should_refresh_equity _ _ && _); [split; reflexivity|].
  destruct (str_in symbol (blacklist cfg)); [split; reflexivity|].
  destruct rot as [rotator|].
  - destruct (select_branch _ _ _).
    + rewrite managing_outcome. cbn [r_state].
      apply managing_equity.
    + match goal with
      | |- context [r_outcome ?r] =>
          destruct (r_outcome r); cbn [r_state]; apply prospecting_equity
      end.
    + split; reflexivity.
  - destruct (map remove_slash _); split; reflexivity.
Qed.

Lemma publish_count cfg symbol l :
  count_events is_equity_fetch (publish cfg symbol l) = O
  /\ count_events is_initial_entry (publish cfg symbol l) = O
  /\ count_events is_entry_exit (publish cfg symbol l) = O.
Proof. unfold publish. now destruct (dashboard_enabled cfg). Qed.

Lemma iteration_fetch_count cfg symbol rot st inp :
  count_events is_equity_fetch (r_trace (iteration cfg symbol rot st inp))
  = if should_refresh_equity (in_time inp) (loc st) then 1%nat else O.
Proof.
  unfold iteration. cbv zeta.
  set (refresh := should_refresh_equity _ _).
  destruct (refresh && _); cbn [r_trace].
  { rewrite !count_events_app. now destruct refresh. }
  destruct (str_in symbol (blacklist cfg)); cbn [r_trace].
  { rewrite !count_events_app. now destruct refresh. }
  destruct rot as [rotator|].
  - destruct (select_branch _ _ _).
    + rewrite managing_outcome. cbn [r_trace r_state].
      rewrite !count_events_app.
      rewrite (proj1 (managing_count _ _ _ _ _ _ _)).
      rewrite (proj1 (publish_count _ _ _)).
      destruct refresh; reflexivity.
    + destruct (r_outcome (prospecting _ _ _ _ _ _)); cbn [r_trace r_state];
        rewrite !count_events_app, prospecting_count,
          ?(proj1 (publish_count _ _ _));
        destruct refresh; reflexivity.
    + cbn [r_outcome r_trace r_state]. rewrite !count_events_app.
      rewrite (proj1 (publish_count _ _ _)).
      destruct refresh; reflexivity.
  - destruct (map remove_slash _); cbn [r_trace];
      rewrite !count_events_app; destruct refresh; reflexivity.
Qed.

Lemma should_refresh_equity_spec (current_time : Q) (l : locals) :
  should_refresh_equity current_time l = true
  <-> total_equity l = None
      \/ equity_refresh_interval < current_time - last_equity_fetch_time l.
Proof.
  unfold should_refresh_equity. rewrite orb_true_iff, Qgtb_true.
  destruct (total_equity l); simpl; intuition congruence.
Qed.

Lemma should_refresh_equity_within (current_time : Q) (l : locals) :
  total_equity l <> None ->
  current_time - last_equity_fetch_time l <= equity_refresh_interval ->
  should_refresh_equity current_time l = false.
Proof.
  intros Hset Hin. apply not_true_iff_false.
  rewrite should_refresh_equity_spec. intros [H|H]; [contradiction|].
  exact (Qlt_not_le _ _ H Hin).
Qed.

(** Passes inside the refresh interval of a populated value fetch nothing
    and leave the cached value and its time stamp alone. *)
Lemma loop_within_interval cfg symbol rot (inputs : list input) :
  forall st,
    total_equity (loc st) <> None ->
    Forall (fun inp => in_time inp - last_equity_fetch_time (loc st)
                       <= equity_refresh_interval) inputs ->
    let r := loop cfg symbol rot st inputs in
    count_events is_equity_fetch (r_trace r) = O
    /\ total_equity (loc (r_state r)) = total_equity (loc st)
    /\ last_equity_fetch_time (loc (r_state r)) = last_equity_fetch_time (loc st).
Proof.
  induction inputs as [|inp rest IH]; intros st Hset Hall; [now simpl|].
  inversion Hall as [|? ? Hin Hrest]; subst.
  pose proof (should_refresh_equity_within _ _ Hset Hin) as Hgate.
  pose proof (iteration_fetch_count cfg symbol rot st inp) as Hc.
  pose proof (iteration_equity cfg symbol rot st inp) as [He Ht].
  unfold after_equity_step in He, Ht. rewrite Hgate in Hc, He, Ht.
  simpl loop.
  destruct (r_outcome (iteration cfg symbol rot st inp)); cbv zeta;
    try (now repeat split).
  all: destruct (IH (r_state (iteration cfg symbol rot st inp))) as (Hc' & He' & Ht');
    [ now rewrite He | now rewrite Ht | ];
    cbn [r_trace r_state]; rewrite count_events_app, Hc, Hc', He', Ht';
    now repeat split.
Qed.

(** C8. A pass fetches the equity exactly when the cached total equity is
    unset or more than 1800 seconds have gone by since the last fetch, and
    then once; passes that stay inside the interval of a populated value
    never fetch; and a pass that crosses the interval boundary and gets a
    value, followed by passes inside the new interval, makes for exactly
    one fetch. *)
Theorem equity_refresh_gate cfg symbol rot (st : loop_state) :
  (forall inp,
      (should_refresh_equity (in_time inp) (loc st) = true
       <-> total_equity (loc st) = None
           \/ 1800 < in_time inp - last_equity_fetch_time (loc st))
      /\ count_events is_equity_fetch (r_trace (iteration cfg symbol rot st inp))
         = if should_refresh_equity (in_time inp) (loc st) then 1%nat else O)
  /\ (forall inputs,
         total_equity (loc st) <> None ->
         Forall (fun inp => in_time inp - last_equity_fetch_time (loc st) <= 1800)
                inputs ->
         count_events is_equity_fetch (r_trace (loop cfg symbol rot st inputs)) = O)
  /\ (forall inp inputs,
         should_refresh_equity (in_time inp) (loc st) = true ->
         in_balance inp <> None ->
         Forall (fun later => in_time later - in_time inp <= 1800) inputs ->
         count_events is_equity_fetch
           (r_trace (loop cfg symbol rot st (inp :: inputs))) = 1%nat).
Proof.
  split; [|split].
  - intros inp. split.
    + apply should_refresh_equity_spec.
    + apply iteration_fetch_count.
  - intros inputs Hset Hall.
    apply (loop_within_interval cfg symbol rot inputs st Hset Hall).
  - intros inp inputs Hgate Hbal Hall.
    pose proof (iteration_fetch_count cfg symbol rot st inp) as Hc.
    pose proof (iteration_equity cfg symbol rot st inp) as [He Ht].
    unfold after_equity_step in He, Ht. rewrite Hgate in Hc, He, Ht.
    simpl in He, Ht. simpl loop.
    destruct (r_outcome (iteration cfg symbol rot st inp)); cbv zeta;
      try exact Hc.
    all: cbn [r_trace]; rewrite count_events_app, Hc;
      rewrite (proj1 (loop_within_interval cfg symbol rot inputs _
                        ltac:(now rewrite He) ltac:(now rewrite Ht)));
      reflexivity.
Qed.

Lemma equity_refresh_gate_witness :
  count_events is_equity_fetch
    (r_trace (loop sample_config "BTCUSDT" (Some ["BTCUSDT"]) funded_state
                [sample_input 20 [] [] None true 2 None 100;
                 sample_input 1810 [] [] None true 2 None 1900])) = O.
Proof.
  apply (proj1 (proj2 (equity_refresh_gate sample_config "BTCUSDT"
                         (Some ["BTCUSDT"]) funded_state))).
  - discriminate.
  - repeat constructor; vm_compute; discriminate.
Defined.

(** C9. When the equity is fetched and the total equity comes back absent,
    the pass is over after the two balance calls and a sleep of 10
    seconds: the loop restarts ([continue]), with no branch evaluated, no
    order placed, no take-profit maintained and no status published. *)
Theorem failed_equity_refresh_defers cfg symbol rot (st : loop_state) (inp : input) :
  should_refresh_equity (in_time inp) (loc st) = true ->
  in_balance inp = None ->
  let r := iteration cfg symbol rot st inp in
  r_trace r = [EvGetAllOpenPositions; EvGetOpenOrders;
               EvGetBalance; EvGetAvailableBalance; EvSleep 10]
  /\ r_outcome r = Restart
  /\ count_events is_trading_action (r_trace r) = O
  /\ r_state r = LoopState (with_equity None (in_available_balance inp)
                                        (in_time inp) (loc st))
                           (self st) (exch st)
  /\ forall rest,
       r_trace (loop cfg symbol rot st (inp :: rest))
       = r_trace r ++ r_trace (loop cfg symbol rot (r_state r) rest).
Proof.
  intros Hgate Hbal r.
  assert (E : r = Result (LoopState (with_equity None (in_available_balance inp)
                                                 (in_time inp) (loc st))
                                    (self st) (exch st))
                         [EvGetAllOpenPositions; EvGetOpenOrders;
                          EvGetBalance; EvGetAvailableBalance; EvSleep 10]
                         Restart).
  { subst r. unfold iteration, after_equity_step. cbv zeta.
    rewrite Hgate, Hbal. reflexivity. }
  repeat split; try (rewrite E; reflexivity).
  intros rest. simpl loop. fold r. rewrite E. reflexivity.
Qed.

Lemma failed_equity_refresh_defers_witness :
  r_outcome (iteration sample_config "BTCUSDT" (Some ["BTCUSDT"])
               (start sample_strategy)
               (sample_input 10 [long_position] ["BTCUSDT"] None true 2 None 100))
  = Restart.
Proof.
  exact (proj1 (proj2 (failed_equity_refresh_defers sample_config "BTCUSDT"
                         (Some ["BTCUSDT"]) (start sample_strategy)
                         (sample_input 10 [long_position] ["BTCUSDT"] None true 2 None 100)
                         eq_refl eq_refl))).
Defined.

(** ** Take-profit orders *)

Lemma placement_spec (q : Q) (take_profit : option Q) (n : nat) (tp : Q) :
  placement q take_profit n = Some tp
  <-> 0 < q /\ take_profit = Some tp /\ n = O.
Proof.
  unfold placement. destruct take_profit as [tp'|]; [|intuition discriminate].
  destruct (Qgtb q 0) eqn:Hq; simpl.
  - apply Qgtb_true in Hq. destruct n; simpl.
    + split; [intros [= ->]; auto | intros (_ & [= ->] & _); reflexivity].
    + intuition discriminate.
  - apply Qgtb_false in Hq. split; [discriminate|].
    intros (Hlt & _). exfalso. exact (Qlt_not_le _ _ Hlt Hq).
Qed.

Lemma reschedule_due_spec (q now next : Q) (take_profit : option Q) (tp : Q) :
  reschedule_due q now next take_profit = Some tp
  <-> 0 < q /\ next <= now /\ take_profit = Some tp.
Proof.
  unfold reschedule_due. destruct (Qgtb q 0) eqn:Hq.
  - apply Qgtb_true in Hq.
    destruct take_profit as [tp'|]; [|intuition discriminate].
    destruct (Qgeb now next) eqn:Hn.
    + apply Qgeb_true in Hn.
      split; [intros [= ->]; auto | intros (_ & _ & [= ->]); reflexivity].
    + split; [discriminate|]. intros (_ & Hle & _).
      apply Qgeb_true in Hle. congruence.
  - apply Qgtb_false in Hq. split; [discriminate|].
    intros (Hlt & _). exfalso. exact (Qlt_not_le _ _ Hlt Hq).
Qed.

Lemma managing_place_events cfg symbol t pd ask st inp s q tp :
  In (EvPlaceTp s q tp) (r_trace (managing cfg symbol t pd ask st inp)) ->
  q = get_qty pd symbol s
  /\ placement q (take_profit_of s inp)
               (tp_count s (exchange_at_count st inp)) = Some tp.
Proof.
  unfold managing, exchange_at_count. cbn [r_trace].
  destruct (placement (get_qty pd symbol Long) _ _) as [pl|] eqn:EL;
  destruct (placement (get_qty pd symbol Short) _ _) as [ps|] eqn:ES;
  destruct (reschedule_due (get_qty pd symbol Long) _ _ _);
  destruct (reschedule_due (get_qty pd symbol Short) _ _ _);
  destruct (test_orders_enabled cfg && _);
  intros H; in_trace H;
  match goal with
  | E : EvPlaceTp _ _ _ = EvPlaceTp _ _ _ |- _ => injection E as <- <- <-
  end; auto.
Qed.

Lemma managing_update_events cfg symbol t pd ask st inp s q tp n five prev :
  In (EvUpdateTakeProfitSpread s q tp n five prev)
     (r_trace (managing cfg symbol t pd ask st inp)) ->
  q = get_qty pd symbol s
  /\ n = next_tp_update_of s (self st)
  /\ five = in_5mSpread inp
  /\ prev = Some (in_5mSpread inp)
  /\ reschedule_due q (in_now inp) n (take_profit_of s inp) = Some tp.
Proof.
  unfold managing. cbn [r_trace].
  destruct (placement (get_qty pd symbol Long) _ _);
  destruct (placement (get_qty pd symbol Short) _ _);
  destruct (reschedule_due (get_qty pd symbol Long) _ _ _) eqn:EL;
  destruct (reschedule_due (get_qty pd symbol Short) _ _ _) eqn:ES;
  destruct (test_orders_enabled cfg && _);
  intros H; in_trace H;
  match goal with
  | E : EvUpdateTakeProfitSpread _ _ _ _ _ _ = _ |- _ =>
      injection E as <- <- <- <- <- <-
  end; auto 6.
Qed.

(** Conversely the reschedule call is made whenever its test passes. *)
Lemma managing_update_made cfg symbol t pd ask st inp s tp :
  reschedule_due (get_qty pd symbol s) (in_now inp)
                 (next_tp_update_of s (self st)) (take_profit_of s inp) = Some tp ->
  In (EvUpdateTakeProfitSpread s (get_qty pd symbol s) tp
        (next_tp_update_of s (self st)) (in_5mSpread inp) (Some (in_5mSpread inp)))
     (r_trace (managing cfg symbol t pd ask st inp)).
Proof.
  intros H. unfold managing. cbn [r_trace].
  rewrite !in_app_iff.
  destruct s; simpl in H; rewrite H; simpl; auto 10.
Qed.

(** Orders are placed and rescheduled by the first branch only. *)
Lemma iteration_tp_events cfg symbol rot st inp e :
  is_tp_action e = true ->
  In e (r_trace (iteration cfg symbol rot st inp)) ->
  In e (r_trace (managing cfg symbol (in_time inp)
                   (build_position_details (in_open_position_data inp))
                   (best_ask_of (read_market symbol st inp))
                   (state_of (read_market symbol st inp)) inp)).
Proof.
  intros He. unfold iteration. cbv zeta.
  set (refresh := should_refresh_equity _ _).
  destruct (refresh && _); cbn [r_trace].
  { destruct refresh; intros H; in_trace H. }
  destruct (str_in symbol (blacklist cfg)); cbn [r_trace].
  { destruct refresh; intros H; in_trace H. }
  destruct rot as [rotator|].
  - destruct (select_branch _ _ _) eqn:Eb.
    + rewrite managing_outcome. cbn [r_trace r_state]. unfold publish.
      set (branch_trace := r_trace (managing _ _ _ _ _ _ _)).
      clearbody branch_trace.
      destruct refresh, (dashboard_enabled cfg); intros H; in_trace H.
    + now apply select_branch_not_prospecting in Eb.
    + cbn [r_outcome r_trace r_state]. unfold publish.
      destruct refresh, (dashboard_enabled cfg); intros H; in_trace H.
  - destruct (map remove_slash _); cbn [r_trace];
      destruct refresh; intros H; in_trace H.
Qed.

Section ExchangeCounts.

Implicit Types (ex : exchange) (s : side).

Lemma tp_count_settle s a b ex :
  (tp_count s (settle_tp a b ex) <= tp_count s ex)%nat.
Proof.
  unfold tp_count, settle_tp. destruct s; simpl; rewrite length_drop; lia.
Qed.

Lemma tp_count_place s s' p ex :
  tp_count s (place_tp s' p ex)
  = if side_eqb s s' then S (tp_count s ex) else tp_count s ex.
Proof.
  unfold tp_count, place_tp. destruct s, s'; simpl;
    rewrite ?length_app; simpl; lia.
Qed.

Lemma tp_count_requote s s' p ex :
  tp_count s (requote_tp s' p ex) = tp_count s ex.
Proof.
  unfold tp_count, requote_tp.
  destruct p as [p|]; [|reflexivity].
  destruct ex as [[|l ls] [|h hs]], s, s'; reflexivity.
Qed.

End ExchangeCounts.

Lemma managing_tp_count cfg symbol t pd ask st inp s :
  (tp_count s (exch st) <= 1)%nat ->
  (tp_count s (exch (r_state (managing cfg symbol t pd ask st inp))) <= 1)%nat.
Proof.
  intros Hle. unfold managing. cbn [r_state exch].
  pose proof (tp_count_settle s (in_tp_filled_long inp) (in_tp_filled_short inp)
                (exch st)) as Hs.
  set (ex1 := settle_tp _ _ _) in *.
  destruct (is_some (reschedule_due (get_qty pd symbol Short) _ _ _));
    rewrite ?tp_count_requote;
  destruct (is_some (reschedule_due (get_qty pd symbol Long) _ _ _));
    rewrite ?tp_count_requote.
  all: destruct (placement (get_qty pd symbol Short) _ _) as [ps|] eqn:ES;
    [apply placement_spec in ES as (_ & _ & ES)|];
    destruct (placement (get_qty pd symbol Long) _ _) as [pl|] eqn:EL;
    [apply placement_spec in EL as (_ & _ & EL)| |
     apply placement_spec in EL as (_ & _ & EL)|];
    rewrite ?tp_count_place; destruct s; simpl; lia.
Qed.

Lemma iteration_tp_count cfg symbol rot st inp s :
  (tp_count s (exch st) <= 1)%nat ->
  (tp_count s (exch (r_state (iteration cfg symbol rot st inp))) <= 1)%nat.
Proof.
  intros Hle. unfold iteration. cbv zeta.
  destruct (_ && _); [exact Hle|].
  destruct (str_in symbol (blacklist cfg)); [exact Hle|].
  destruct rot as [rotator|].
  - destruct (select_branch _ _ _) eqn:Eb.
    + rewrite managing_outcome. cbn [r_state].
      now apply managing_tp_count.
    + now apply select_branch_not_prospecting in Eb.
    + exact Hle.
  - destruct (map remove_slash _); exact Hle.
Qed.

Lemma loop_tp_count cfg symbol rot (inputs : list input) s :
  forall st, (tp_count s (exch st) <= 1)%nat ->
             (tp_count s (exch (r_state (loop cfg symbol rot st inputs))) <= 1)%nat.
Proof.
  induction inputs as [|inp rest IH]; intros st Hle; [exact Hle|].
  pose proof (iteration_tp_count cfg symbol rot st inp s Hle) as H1.
  simpl loop. destruct (r_outcome (iteration cfg symbol rot st inp));
    cbv zeta; cbn [r_state]; auto.
Qed.

(** C3. With at most one take-profit order resting on a side before the
    loop (line 86 leaves none), that side has at most one after any
    sequence of passes; and a pass places a take-profit order on a side
    only when the side's quantity is positive, its target is not [None]
    and the count just read for the side is zero. *)
Theorem take_profit_singleton cfg symbol rot (st : loop_state)
    (inputs : list input) (s : side) :
  (tp_count s (exch st) <= 1)%nat ->
  (tp_count s (exch (r_state (loop cfg symbol rot st inputs))) <= 1)%nat
  /\ forall st' inp q tp,
       In (EvPlaceTp s q tp) (r_trace (iteration cfg symbol rot st' inp)) ->
       q = get_qty (build_position_details (in_open_position_data inp)) symbol s
       /\ 0 < q
       /\ take_profit_of s inp = Some tp
       /\ tp_count s (exchange_at_count st' inp) = O.
Proof.
  intros Hle. split; [now apply loop_tp_count|].
  intros st' inp q tp Hin.
  apply iteration_tp_events in Hin; [|reflexivity].
  apply managing_place_events in Hin as [Hq Hp].
  apply placement_spec in Hp as (Hpos & Htp & Hc).
  repeat split; assumption.
Qed.

Lemma take_profit_singleton_witness :
  (tp_count Long
     (exch (r_state (loop sample_config "BTCUSDT" (Some ["BTCUSDT"])
                       (start sample_strategy) two_passes))) <= 1)%nat.
Proof.
  apply (take_profit_singleton sample_config "BTCUSDT" (Some ["BTCUSDT"])
           (start sample_strategy)).
  vm_compute. lia.
Defined.

(** ** Branch selection *)

Lemma initial_entry_never_called cfg symbol rot st inp :
  count_events is_initial_entry (r_trace (iteration cfg symbol rot st inp)) = O.
Proof.
  unfold iteration. cbv zeta.
  set (refresh := should_refresh_equity _ _).
  destruct (refresh && _); cbn [r_trace].
  { rewrite !count_events_app. now destruct refresh. }
  destruct (str_in symbol (blacklist cfg)); cbn [r_trace].
  { rewrite !count_events_app. now destruct refresh. }
  destruct rot as [rotator|].
  - destruct (select_branch _ _ _) eqn:Eb.
    + rewrite managing_outcome. cbn [r_trace r_state].
      rewrite !count_events_app.
      rewrite (proj1 (proj2 (managing_count _ _ _ _ _ _ _))).
      rewrite (proj1 (proj2 (publish_count _ _ _))).
      destruct refresh; reflexivity.
    + now apply select_branch_not_prospecting in Eb.
    + cbn [r_outcome r_trace r_state]. rewrite !count_events_app.
      rewrite (proj1 (proj2 (publish_count _ _ _))).
      destruct refresh; reflexivity.
  - destruct (map remove_slash _); cbn [r_trace];
      rewrite !count_events_app; destruct refresh; reflexivity.
Qed.

(** C2. In a pass where the symbol is in the rotation list, is not among
    the open symbols and may trade as a new symbol, the test of line 249
    already holds: the first (managing) branch runs, the entry/exit
    collaborator is called once and the initial-entry collaborator of the
    second branch is not called. *)
Theorem rotation_symbol_without_exposure_is_managed
    cfg symbol (rotator : list string) (st : loop_state) (inp : input) :
  str_in symbol rotator = true ->
  str_in symbol (map remove_slash (in_extracted_symbols inp)) = false ->
  in_trading_allowed inp = true ->
  let r := iteration cfg symbol (Some rotator) st inp in
  select_branch (str_in symbol rotator)
                (str_in symbol (map remove_slash (in_extracted_symbols inp)))
                (in_trading_allowed inp) = Managing
  /\ count_events is_initial_entry (r_trace r) = O
  /\ (r_outcome r = Next -> count_events is_entry_exit (r_trace r) = 1%nat).
Proof.
  intros Hrot Hopen Hallowed r.
  split; [now rewrite Hrot, Hopen, Hallowed|].
  split; [apply initial_entry_never_called|].
  subst r. unfold iteration. cbv zeta.
  set (refresh := should_refresh_equity _ _).
  destruct (refresh && _); cbn [r_outcome]; [discriminate|].
  destruct (str_in symbol (blacklist cfg)); cbn [r_outcome]; [discriminate|].
  rewrite Hrot, Hopen, Hallowed. cbn [select_branch orb].
  rewrite managing_outcome. cbn [r_trace r_state]. intros _.
  rewrite !count_events_app.
  rewrite (proj2 (proj2 (managing_count _ _ _ _ _ _ _))).
  rewrite (proj2 (proj2 (publish_count _ _ _))).
  destruct refresh; reflexivity.
Qed.

Lemma rotation_symbol_without_exposure_is_managed_witness :
  count_events is_initial_entry
    (r_trace (iteration sample_config "BTCUSDT" (Some ["BTCUSDT"])
                (start sample_strategy)
                (sample_input 10 [] [] (Some 1000) true 2 None 100))) = O
  /\ count_events is_entry_exit
       (r_trace (iteration sample_config "BTCUSDT" (Some ["BTCUSDT"])
                   (start sample_strategy)
                   (sample_input 10 [] [] (Some 1000) true 2 None 100))) = 1%nat.
Proof.
  pose proof (rotation_symbol_without_exposure_is_managed sample_config
                "BTCUSDT" ["BTCUSDT"] (start sample_strategy)
                (sample_input 10 [] [] (Some 1000) true 2 None 100)
                eq_refl eq_refl eq_refl) as (_ & H0 & H1).
  split; [exact H0 | exact (H1 eq_refl)].
Defined.

(** ** Rescheduling the take-profit *)

(** Every reschedule call of a pass is made for a side with a positive
    quantity, a target and a due update time, and is handed the spread of
    this pass twice: as the current and as the previous one. *)
Lemma reschedule_call_arguments cfg symbol rot st inp s q tp n five prev :
  In (EvUpdateTakeProfitSpread s q tp n five prev)
     (r_trace (iteration cfg symbol rot st inp)) ->
  0 < q /\ n <= in_now inp /\ take_profit_of s inp = Some tp
  /\ n = next_tp_update_of s (self st)
  /\ five = in_5mSpread inp /\ prev = Some (in_5mSpread inp).
Proof.
  intros Hin. apply iteration_tp_events in Hin; [|reflexivity].
  apply managing_update_events in Hin as (_ & Hn & H5 & Hprev & Hdue).
  apply reschedule_due_spec in Hdue as (Hq & Hle & Htp).
  repeat split; assumption.
Qed.

(** X15. In the first branch the reschedule call for a side is made
    exactly when the side's quantity is positive, the clock of line 404 has
    reached the side's next update time and the side has a target. *)
Lemma reschedule_iff_due cfg symbol t pd ask st inp s :
  (exists tp five prev,
      In (EvUpdateTakeProfitSpread s (get_qty pd symbol s) tp
            (next_tp_update_of s (self st)) five prev)
         (r_trace (managing cfg symbol t pd ask st inp)))
  <-> 0 < get_qty pd symbol s
      /\ next_tp_update_of s (self st) <= in_now inp
      /\ take_profit_of s inp <> None.
Proof.
  split.
  - intros (tp & five & prev & Hin).
    apply managing_update_events in Hin as (_ & _ & _ & _ & Hdue).
    apply reschedule_due_spec in Hdue as (Hq & Hle & Htp).
    repeat split; [assumption | assumption | congruence].
  - intros (Hq & Hle & Htp).
    destruct (take_profit_of s inp) as [tp|] eqn:E; [|contradiction].
    exists tp, (in_5mSpread inp), (Some (in_5mSpread inp)).
    apply managing_update_made. rewrite E.
    apply reschedule_due_spec. auto.
Qed.

(** C5. Two passes over an open long position, the five-minute spread
    being 1 in the first and 2 in the second. The second pass computes the
    targets from the current spread 2 and the retained spread 1 (line 323);
    its reschedule call (line 409) is handed 2 as the current and 2, not
    the retained 1, as the previous spread, line 324 having overwritten
    it. *)
Theorem reschedule_gets_current_spread_as_previous :
  let first := iteration sample_config "BTCUSDT" (Some ["BTCUSDT"])
                         (start sample_strategy)
                         (sample_input 10 [long_position] ["BTCUSDT"]
                                       (Some 1000) true 1 (Some 105) 20) in
  let second := iteration sample_config "BTCUSDT" (Some ["BTCUSDT"])
                          (r_state first)
                          (sample_input 50 [long_position] ["BTCUSDT"]
                                        (Some 1000) true 2 (Some 106) 100) in
  previous_five_minute_distance (loc (r_state first)) = Some 1
  /\ In (EvCalculateTakeProfits (Some 0) (Some 100) 2 (Some 1)) (r_trace second)
  /\ In (EvUpdateTakeProfitSpread Long 1 106 50 2 (Some 2)) (r_trace second).
Proof.
  vm_compute. split; [reflexivity|]. split; find_event.
Qed.

(** ** The lock gate *)

Section LockGate.

Import SymbolLocks.

Implicit Types (w : world) (t : thread) (k : string).

Lemma count_threads_insert (p : thread -> bool) (l : list thread) :
  forall i t t',
    l !! i = Some t ->
    (count_threads p (<[i := t']> l) + Nat.b2n (p t)
     = count_threads p l + Nat.b2n (p t'))%nat.
Proof.
  induction l as [|x l IH]; intros [|i] t t' H; simpl in *; try discriminate.
  - injection H as ->. lia.
  - specialize (IH i t t' H). lia.
Qed.

Lemma processing_le_holds k (l : list thread) :
  (count_threads (is_processing k) l <= count_threads (holds k) l)%nat.
Proof.
  induction l as [|t l IH]; simpl; [lia|].
  assert (H : is_processing k t = true -> holds k t = true).
  { unfold is_processing, holds.
    destruct (String.eqb _ k), (t_pc t); simpl; auto. }
  destruct (is_processing k t), (holds k t); simpl; try lia.
Qed.

(** A thread that finds the lock taken leaves [run] at once: nothing is
    processed, nothing is waited for, the shared store is untouched. *)
Lemma failed_acquire_returns w i t l :
  threads w !! i = Some t ->
  t_pc t = AtAcquire ->
  symbol_locks w !! standardized_symbol t = Some l ->
  lock_heap w !! l = Some true ->
  step i w = Some (World (symbol_locks w) (lock_heap w)
                         (<[i := Thread (t_symbol t) (Returned false)]> (threads w))).
Proof.
  intros Ht Hpc Hk Hl. unfold step. now rewrite Ht, Hpc, Hk, Hl.
Qed.

Lemma creating_thread k a p :
  creating k (Thread a p)
  = String.eqb (upper a) k && match p with AtCreate => true | _ => false end.
Proof. reflexivity. Qed.

Lemma holds_thread k a p :
  holds k (Thread a p)
  = String.eqb (upper a) k
    && match p with Processing | AtRelease => true | _ => false end.
Proof. reflexivity. Qed.

Lemma step_registered k l w i w' :
  registered k l w -> step i w = Some w' -> registered k l w'.
Proof.
  intros [Hkey Hown Hheap Hcr Hho Hlk] Hstep. unfold step in Hstep.
  destruct (threads w !! i) as [[a p]|] eqn:Ht; [|discriminate].
  pose proof (fun p' => count_threads_insert (creating k) _ i _ (Thread a p') Ht) as Cc.
  pose proof (fun p' => count_threads_insert (holds k) _ i _ (Thread a p') Ht) as Ch.
  unfold standardized_symbol, set_pc in Hstep. cbn [t_symbol t_pc] in Hstep.
  pose proof (Cc AtAcquire) as Cacq. pose proof (Ch AtAcquire) as Hacq.
  pose proof (Cc AtCreate) as Ccre. pose proof (Ch AtCreate) as Hcre.
  pose proof (Cc Processing) as Cpro. pose proof (Ch Processing) as Hpro.
  pose proof (Cc AtRelease) as Crel. pose proof (Ch AtRelease) as Hrel.
  pose proof (Cc Raised) as Crai. pose proof (Ch Raised) as Hrai.
  pose proof (Cc (Returned false)) as Cno. pose proof (Ch (Returned false)) as Hno.
  pose proof (Cc (Returned true)) as Cyes. pose proof (Ch (Returned true)) as Hyes.
  clear Cc Ch.
  rewrite !creating_thread in Cacq, Ccre, Cpro, Crel, Crai, Cno, Cyes.
  rewrite !holds_thread in Hacq, Hcre, Hpro, Hrel, Hrai, Hno, Hyes.
  pose proof (Hheap k l Hkey) as Hl.
  assert (Hfree : lock_heap w !! l = Some false ->
                  count_threads (holds k) (threads w) = O).
  { intros El.
    destruct (Nat.eq_dec (count_threads (holds k) (threads w)) 1%nat) as [H1|H1];
      [rewrite (Hlk H1) in El; discriminate | lia]. }
  destruct (String.eqb (upper a) k) eqn:Ek;
    [apply String.eqb_eq in Ek | apply String.eqb_neq in Ek];
    destruct p; simpl in *; try discriminate.
  - (* membership test, own key: the lock is there *)
    rewrite Ek, Hkey in Hstep. injection Hstep as <-.
    registered_fields Hlk.
  - (* a creating thread of this key cannot exist *)
    lia.
  - (* acquire, own key *)
    rewrite Ek, Hkey in Hstep.
    destruct (lookup_lt_is_Some_2 _ _ Hl) as [b Hb]. rewrite Hb in Hstep.
    destruct b; injection Hstep as <-.
    + registered_fields Hlk.
    + specialize (Hfree Hb).
      constructor; cbn [symbol_locks lock_heap threads t_symbol];
        auto; try lia.
      * intros k' l' Hk'. rewrite length_insert. eauto.
      * intros _. apply list_lookup_insert_eq. exact Hl.
  - (* run_single_symbol returns *)
    injection Hstep as <-. registered_fields Hlk.
  - (* release, own key *)
    rewrite Ek, Hkey in Hstep.
    destruct (lookup_lt_is_Some_2 _ _ Hl) as [b Hb]. rewrite Hb in Hstep.
    destruct b; injection Hstep as <-.
    + constructor; cbn [symbol_locks lock_heap threads t_symbol];
        auto; try lia.
      intros k' l' Hk'. rewrite length_insert. eauto.
    + registered_fields Hlk.
  - (* membership test, another key *)
    destruct (symbol_locks w !! upper a); injection Hstep as <-;
      registered_fields Hlk.
  - (* another key creates its lock *)
    injection Hstep as <-.
    constructor; cbn [symbol_locks lock_heap threads t_symbol]; try lia.
    + rewrite lookup_insert_ne; auto.
    + intros k' Hk'. destruct (decide (upper a = k')) as [<-|Hne].
      * rewrite lookup_insert_eq in Hk'. injection Hk' as Hk'. lia.
      * rewrite lookup_insert_ne in Hk'; auto.
    + intros k' l' Hk'. rewrite length_app. simpl.
      destruct (decide (upper a = k')) as [<-|Hne].
      * rewrite lookup_insert_eq in Hk'. injection Hk' as <-. lia.
      * rewrite lookup_insert_ne in Hk'; auto.
        specialize (Hheap k' l' Hk'). lia.
    + intros H1. rewrite lookup_app_l; [|exact Hl]. apply Hlk. lia.
  - (* acquire, another key *)
    destruct (symbol_locks w !! upper a) as [l'|] eqn:Ea;
      [|injection Hstep as <-; registered_fields Hlk].
    assert (l' <> l) by (intros ->; apply Ek; auto).
    destruct (lock_heap w !! l') as [[|]|] eqn:El; injection Hstep as <-.
    + registered_fields Hlk.
    + constructor; cbn [symbol_locks lock_heap threads t_symbol];
        auto; try lia.
      * intros k' l'' Hk'. rewrite length_insert. eauto.
      * intros H1. rewrite list_lookup_insert_ne; auto. apply Hlk. lia.
    + registered_fields Hlk.
  - (* run_single_symbol returns, another key *)
    injection Hstep as <-. registered_fields Hlk.
  - (* release, another key *)
    destruct (symbol_locks w !! upper a) as [l'|] eqn:Ea;
      [|injection Hstep as <-; registered_fields Hlk].
    assert (l' <> l) by (intros ->; apply Ek; auto).
    destruct (lock_heap w !! l') as [[|]|] eqn:El; injection Hstep as <-.
    + constructor; cbn [symbol_locks lock_heap threads t_symbol];
        auto; try lia.
      * intros k' l'' Hk'. rewrite length_insert. eauto.
      * intros H1. rewrite list_lookup_insert_ne; auto. apply Hlk. lia.
    + registered_fields Hlk.
    + registered_fields Hlk.
Qed.

Lemma exec_registered k l (sched : list nat) :
  forall w w', registered k l w -> exec sched w = Some w' -> registered k l w'.
Proof.
  induction sched as [|i rest IH]; intros w w' Hreg Hexec; simpl in Hexec.
  - now injection Hexec as <-.
  - destruct (step i w) as [w1|] eqn:Hs; [|discriminate].
    exact (IH w1 w' (step_registered k l w i w1 Hreg Hs) Hexec).
Qed.

(** X1. Take a state in which the Lock of a key is in the registry and
    exists, no other key maps to it, no thread of the key stands between
    the test of line 47 and the store of line 48, and at most one thread
    of the key stands between a successful [acquire] and its [release],
    the Lock being locked if there is one ([registered]). Then under every
    schedule at most one thread is inside [run_single_symbol] for that
    key. *)
Lemma mutual_exclusion_once_registered k l (sched : list nat) w w' :
  registered k l w -> exec sched w = Some w' ->
  (processing_count k w' <= 1)%nat.
Proof.
  intros Hreg Hexec.
  destruct (exec_registered k l sched w w' Hreg Hexec) as [_ _ _ _ Hho _].
  unfold processing_count.
  pose proof (processing_le_holds k (threads w')). lia.
Qed.

(** The key a thread stores its Lock under is the uppercased argument. *)
Lemma create_stores_under_upper w i t w' :
  threads w !! i = Some t -> t_pc t = AtCreate -> step i w = Some w' ->
  symbol_locks w'
  = <[upper (t_symbol t) := length (lock_heap w)]> (symbol_locks w).
Proof.
  intros Ht Hpc Hs. unfold step in Hs. rewrite Ht, Hpc in Hs.
  now injection Hs as <-.
Qed.

End LockGate.

(** C1. Two threads call [run("BTCUSDT")] in a fresh process. Both find the
    key missing (line 47) before either stores its Lock (line 48); each
    then stores and acquires a Lock of its own, and both are inside
    [run_single_symbol] at the same time. *)
Theorem same_symbol_both_process :
  exists w,
    SymbolLocks.exec [0; 1; 0; 0; 1; 1]%nat
                     (SymbolLocks.fresh ["BTCUSDT"; "BTCUSDT"]) = Some w
    /\ SymbolLocks.lock_heap w = [true; true]
    /\ SymbolLocks.processing_count "BTCUSDT" w = 2%nat.
Proof. eexists. split; [vm_compute; reflexivity|]. split; reflexivity. Qed.

(** C10. Both [run("btcusdt")] and [run("BTCUSDT")] use the key "BTCUSDT";
    under the schedule above the registry ends with one entry for that key
    and both threads are inside [run_single_symbol] for it at once. *)
Theorem case_variants_both_process :
  upper "btcusdt" = "BTCUSDT" /\ upper "BTCUSDT" = "BTCUSDT"
  /\ exists w,
       SymbolLocks.exec [0; 1; 0; 0; 1; 1]%nat
                        (SymbolLocks.fresh ["btcusdt"; "BTCUSDT"]) = Some w
       /\ SymbolLocks.symbol_locks w = {["BTCUSDT" := 1%nat]}
       /\ SymbolLocks.processing_count "BTCUSDT" w = 2%nat.
Proof.
  split; [reflexivity|]. split; [reflexivity|].
  eexists. split; [vm_compute; reflexivity|]. split; reflexivity.
Qed.

(** ** The order book across the passes of the loop *)

Lemma remember_app (last_known : gmap string Q) (symbol : string)
    (a b : list (option (list (Q * Q)))) :
  remember last_known symbol (a ++ b)
  = remember (remember last_known symbol a) symbol b.
Proof. unfold remember. apply foldl_app. Qed.

(** A pass changes the last-known prices through lines 207-219 only. *)
Lemma iteration_last_known cfg symbol rot st inp :
  let seen := if reaches_book cfg symbol st inp then [in_order_book inp] else [] in
  last_known_ask (self (r_state (iteration cfg symbol rot st inp)))
  = remember (last_known_ask (self st)) symbol (map asks seen)
  /\ last_known_bid (self (r_state (iteration cfg symbol rot st inp)))
     = remember (last_known_bid (self st)) symbol (map bids seen).
Proof.
  unfold iteration, reaches_book. cbv zeta.
  destruct (should_refresh_equity _ _ && _); [split; reflexivity|].
  destruct (str_in symbol (blacklist cfg)); [split; reflexivity|].
  destruct rot as [rotator|].
  - destruct (select_branch _ _ _) eqn:Eb.
    + rewrite managing_outcome. split; reflexivity.
    + now apply select_branch_not_prospecting in Eb.
    + split; reflexivity.
  - destruct (map remove_slash _); split; reflexivity.
Qed.

Lemma loop_last_known cfg symbol rot (inputs : list input) :
  forall st,
    last_known_ask (self (r_state (loop cfg symbol rot st inputs)))
    = remember (last_known_ask (self st)) symbol
               (map asks (seen_books cfg symbol rot st inputs))
    /\ last_known_bid (self (r_state (loop cfg symbol rot st inputs)))
       = remember (last_known_bid (self st)) symbol
                  (map bids (seen_books cfg symbol rot st inputs)).
Proof.
  induction inputs as [|inp rest IH]; intros st; [split; reflexivity|].
  destruct (iteration_last_known cfg symbol rot st inp) as [Ha Hb].
  cbv zeta in Ha, Hb. simpl loop. simpl seen_books.
  rewrite !map_app, !remember_app, <- Ha, <- Hb.
  destruct (r_outcome (iteration cfg symbol rot st inp)); cbv zeta;
    cbn [r_state]; simpl map; try (split; reflexivity); apply IH.
Qed.

(** The ask a pass reports after the loop has run over [inputs], for a
    strategy that knew no ask of the symbol at the start: the live top if
    there is one, else the latest live top the earlier passes read, else
    [None]. *)
Lemma loop_reports_last_live cfg symbol rot st (inputs : list input) (inp : input) :
  last_known_ask (self st) !! symbol = None ->
  best_ask_of (read_market symbol (r_state (loop cfg symbol rot st inputs)) inp)
  = match top_of_book (asks (in_order_book inp)) with
    | Some p => Some p
    | None => last_live (map asks (seen_books cfg symbol rot st inputs))
    end.
Proof.
  intros Hnone. unfold best_ask_of, read_market. cbn [fst].
  destruct (top_of_book (asks (in_order_book inp))) as [p|] eqn:E.
  - now rewrite (best_price_live _ _ _ _ E).
  - rewrite (best_price_empty _ _ _ E). cbn [fst].
    rewrite (proj1 (loop_last_known cfg symbol rot inputs st)).
    rewrite remember_lookup, Hnone.
    now destruct (last_live _).
Qed.

(** * Further properties *)

(** ** The lock registry *)

Section Registry.

Import SymbolLocks.

Implicit Types (w : world) (t : thread) (k : string).

Lemma registered_world_registered : registered "BTCUSDT" O registered_world.
Proof.
  constructor; cbn [registered_world symbol_locks lock_heap threads].
  - reflexivity.
  - intros k' H. apply lookup_singleton_Some in H. symmetry. apply H.
  - intros k' l' H. apply lookup_singleton_Some in H as [_ <-]. simpl. lia.
  - reflexivity.
  - vm_compute. lia.
  - vm_compute. discriminate.
Defined.

(** X2. An uncontended call whose [run_single_symbol] comes to an end (by
    the [break] of line 196 or by an exception): it found the registered
    Lock free and acquired it, and once its [finally] clause has run the
    shared store is what it was before the call, the Lock free again; a
    call for the same key that comes next acquires the Lock and
    processes. *)
Lemma lock_free_after_call_ends k l w i a :
  registered k l w ->
  lock_heap w !! l = Some false ->
  threads w !! i = Some (Thread a AtCheck) ->
  upper a = k ->
  exists w',
    exec [i; i; i; i] w = Some w'
    /\ symbol_locks w' = symbol_locks w
    /\ lock_heap w' = lock_heap w
    /\ forall j b,
         j <> i ->
         threads w !! j = Some (Thread b AtCheck) ->
         upper b = k ->
         exists w'',
           exec [j; j] w' = Some w''
           /\ threads w'' !! j = Some (Thread b Processing)
           /\ lock_heap w'' !! l = Some true.
Proof.
  intros [Hkey _ Hheap _ _ _] Hfree Ht Hk.
  pose proof (lookup_lt_Some _ _ _ Ht) as Hi.
  pose proof (Hheap k l Hkey) as Hl.
  eexists. split.
  - simpl exec. unfold step at 1. rewrite Ht.
    unfold standardized_symbol. cbn [t_symbol t_pc]. rewrite Hk, Hkey.
    unfold set_pc, step at 1. cbn [threads symbol_locks lock_heap t_symbol].
    rewrite list_lookup_insert_eq by exact Hi.
    unfold standardized_symbol. cbn [t_symbol t_pc]. rewrite Hk, Hkey, Hfree.
    unfold step at 1. cbn [threads symbol_locks lock_heap].
    rewrite list_lookup_insert_eq by (rewrite length_insert; exact Hi).
    cbn [t_pc]. unfold set_pc, step at 1.
    cbn [threads symbol_locks lock_heap t_symbol].
    rewrite list_lookup_insert_eq by (rewrite !length_insert; exact Hi).
    unfold standardized_symbol. cbn [t_symbol t_pc]. rewrite Hk, Hkey.
    rewrite list_lookup_insert_eq by exact Hl.
    reflexivity.
  - cbn [threads symbol_locks lock_heap].
    assert (Hsame : <[l:=false]> (<[l:=true]> (lock_heap w)) = lock_heap w).
    { rewrite list_insert_insert_eq. now apply list_insert_id. }
    split; [reflexivity|]. split; [exact Hsame|].
    intros j b Hji Hj Hb.
    pose proof (lookup_lt_Some _ _ _ Hj) as Hjl.
    rewrite Hsame. eexists. split.
    + simpl exec. unfold step at 1. cbn [threads symbol_locks lock_heap].
      rewrite !list_lookup_insert_ne by (intros E; apply Hji; now symmetry).
      rewrite Hj. unfold standardized_symbol. cbn [t_symbol t_pc].
      rewrite Hb, Hkey.
      unfold set_pc, step at 1. cbn [threads symbol_locks lock_heap t_symbol].
      rewrite list_lookup_insert_eq by (rewrite !length_insert; exact Hjl).
      unfold standardized_symbol. cbn [t_symbol t_pc]. rewrite Hb, Hkey, Hfree.
      reflexivity.
    + cbn [threads lock_heap]. split.
      * apply list_lookup_insert_eq. rewrite !length_insert. exact Hjl.
      * apply list_lookup_insert_eq. exact Hl.
Qed.

Lemma fresh_sound (args : list string) : sound (fresh args).
Proof.
  constructor; cbn [fresh symbol_locks lock_heap threads].
  - intros k l H. now rewrite lookup_empty in H.
  - intros j t Ht Hp. rewrite list_lookup_fmap in Ht.
    destruct (args !! j); simpl in Ht; [|discriminate].
    injection Ht as <-. discriminate.
Qed.

Lemma step_sound w i w' :
  sound w -> step i w = Some w' ->
  sound w'
  /\ forall k, is_Some (symbol_locks w !! k) -> is_Some (symbol_locks w' !! k).
Proof.
  intros [Hheap Hkeys] Hstep. unfold step in Hstep.
  destruct (threads w !! i) as [[a p]|] eqn:Ht; [|discriminate].
  pose proof (Hkeys i _ Ht) as Hme.
  unfold standardized_symbol, set_pc in *. cbn [t_symbol t_pc] in *.
  assert (Hpc : forall p' w1,
             w1 = World (symbol_locks w) (lock_heap w)
                        (<[i := Thread a p']> (threads w)) ->
             (past_check p' = true -> is_Some (symbol_locks w !! upper a)) ->
             sound w1
             /\ forall k, is_Some (symbol_locks w !! k) ->
                          is_Some (symbol_locks w1 !! k)).
  { intros p' w1 -> Hnew. split; [|auto].
    constructor; cbn [symbol_locks lock_heap threads]; [exact Hheap|].
    intros j t Hj Hp. apply list_lookup_insert_Some in Hj as [(-> & <- & _)|[_ Hj]].
    - apply Hnew, Hp.
    - exact (Hkeys j t Hj Hp). }
  assert (Hlock : forall p' b l w1,
             w1 = World (symbol_locks w) (<[l := b]> (lock_heap w))
                        (<[i := Thread a p']> (threads w)) ->
             (past_check p' = true -> is_Some (symbol_locks w !! upper a)) ->
             sound w1
             /\ forall k, is_Some (symbol_locks w !! k) ->
                          is_Some (symbol_locks w1 !! k)).
  { intros p' b l w1 -> Hnew. split; [|auto].
    constructor; cbn [symbol_locks lock_heap threads].
    - intros k l' Hk. rewrite length_insert. eauto.
    - intros j t Hj Hp.
      apply list_lookup_insert_Some in Hj as [(-> & <- & _)|[_ Hj]].
      + apply Hnew, Hp.
      + exact (Hkeys j t Hj Hp). }
  destruct p; try discriminate.
  - destruct (symbol_locks w !! upper a) eqn:E; injection Hstep as <-;
      eapply Hpc; eauto; discriminate.
  - injection Hstep as <-. split.
    + constructor; cbn [symbol_locks lock_heap threads].
      * intros k l Hk. rewrite length_app. simpl.
        apply lookup_insert_Some in Hk as [[_ <-]|[_ Hk]]; [lia|].
        specialize (Hheap k l Hk). lia.
      * intros j t Hj Hp.
        apply list_lookup_insert_Some in Hj as [(-> & <- & _)|[_ Hj]].
        -- cbn [t_symbol]. rewrite lookup_insert_eq. eauto.
        -- apply lookup_insert_is_Some'. right. exact (Hkeys j t Hj Hp).
    + intros k Hk. cbn [symbol_locks].
      apply lookup_insert_is_Some'. now right.
  - destruct (symbol_locks w !! upper a) as [l|] eqn:E.
    + destruct (lock_heap w !! l) as [[|]|]; injection Hstep as <-;
        first [eapply Hlock; [reflexivity|] | eapply Hpc; [reflexivity|]];
        first [discriminate | intros _; eauto].
    + injection Hstep as <-. eapply Hpc; eauto; discriminate.
  - injection Hstep as <-. eapply Hpc; [reflexivity|]. intros _. now apply Hme.
  - destruct (symbol_locks w !! upper a) as [l|] eqn:E.
    + destruct (lock_heap w !! l) as [[|]|]; injection Hstep as <-;
        first [eapply Hlock; [reflexivity|] | eapply Hpc; [reflexivity|]];
        first [discriminate | intros _; eauto].
    + injection Hstep as <-. eapply Hpc; eauto; discriminate.
Qed.

Lemma exec_sound (sched : list nat) :
  forall w w', sound w -> exec sched w = Some w' ->
    sound w'
    /\ forall k, is_Some (symbol_locks w !! k) -> is_Some (symbol_locks w' !! k).
Proof.
  induction sched as [|i rest IH]; intros w w' Hs Hexec; simpl in Hexec.
  - injection Hexec as <-. auto.
  - destruct (step i w) as [w1|] eqn:E; [|discriminate].
    destruct (step_sound w i w1 Hs E) as [Hs1 Hg1].
    destruct (IH w1 w' Hs1 Hexec) as [Hs' Hg']. auto.
Qed.

(** X3. From a registry whose locks all exist, under every schedule: the
    registry stays so, no key is ever removed, and a thread that reaches
    line 50 finds its key and its Lock ([symbol_locks[...]] raises no
    KeyError): it starts processing if the lock is free and returns at once
    if it is taken. *)
Theorem registry_stays_sound w (sched : list nat) w' :
  sound w -> exec sched w = Some w' ->
  sound w'
  /\ (forall k, is_Some (symbol_locks w !! k) -> is_Some (symbol_locks w' !! k))
  /\ forall i t,
       threads w' !! i = Some t -> t_pc t = AtAcquire ->
       exists (l : nat) (b : bool),
         symbol_locks w' !! standardized_symbol t = Some l
         /\ lock_heap w' !! l = Some b
         /\ step i w'
            = Some (if b
                    then World (symbol_locks w') (lock_heap w')
                               (<[i := Thread (t_symbol t) (Returned false)]>
                                  (threads w'))
                    else World (symbol_locks w') (<[l := true]> (lock_heap w'))
                               (<[i := Thread (t_symbol t) Processing]>
                                  (threads w'))).
Proof.
  intros Hs Hexec. destruct (exec_sound sched w w' Hs Hexec) as [Hs' Hgrow].
  split; [exact Hs'|]. split; [exact Hgrow|].
  intros i t Ht Hpc. destruct Hs' as [Hheap Hkeys].
  destruct (Hkeys i t Ht) as [l Hl]; [now rewrite Hpc|].
  destruct (lookup_lt_is_Some_2 _ _ (Hheap _ _ Hl)) as [b Hb].
  exists l, b. split; [exact Hl|]. split; [exact Hb|].
  unfold step. rewrite Ht, Hpc, Hl, Hb. now destruct b.
Qed.

Lemma registry_stays_sound_witness :
  exists w',
    exec [0; 0; 1]%nat (fresh ["BTCUSDT"; "btcusdt"]) = Some w'
    /\ sound w'.
Proof.
  eexists. split; [vm_compute; reflexivity|].
  eapply (registry_stays_sound (fresh ["BTCUSDT"; "btcusdt"]) [0; 0; 1]%nat).
  - apply fresh_sound.
  - vm_compute. reflexivity.
Defined.

Lemma mutual_exclusion_once_registered_witness :
  exists w',
    exec [0; 1; 0; 1; 0]%nat registered_world = Some w'
    /\ (processing_count "BTCUSDT" w' <= 1)%nat.
Proof.
  eexists. split; [vm_compute; reflexivity|].
  eapply (mutual_exclusion_once_registered "BTCUSDT" O
            [0; 1; 0; 1; 0]%nat registered_world).
  - exact registered_world_registered.
  - vm_compute. reflexivity.
Defined.

Lemma lock_free_after_call_ends_witness :
  exists w',
    exec [0; 0; 0; 0]%nat registered_world = Some w'
    /\ symbol_locks w' = symbol_locks registered_world
    /\ lock_heap w' = lock_heap registered_world.
Proof.
  destruct (lock_free_after_call_ends "BTCUSDT" O registered_world O "btcusdt"
              registered_world_registered eq_refl eq_refl eq_refl)
    as (w' & He & Hs & Hl & _).
  exists w'. auto.
Defined.

End Registry.

(** ** The snapshot of any list of records *)

Section Totals.

Implicit Types (pd : gmap string symbol_summary) (s : side)
               (info : raw_info) (records : list raw_info).

Lemma add_position_incomplete pd info :
  complete info = false -> add_position pd info = pd.
Proof.
  unfold complete, add_position.
  destruct (i_size info), (i_side info), (i_avgPrice info);
    simpl; intros H; try discriminate; reflexivity.
Qed.

(** What one record does to one side of one entry. *)
Lemma add_position_side pd symbol s info :
  on_side s (default fresh_summary (add_position pd info !! symbol))
  = match contribution symbol s info with
    | Some (size, avgp) =>
        SideSummary (qty (on_side s (default fresh_summary (pd !! symbol))) + size)
                    avgp
    | None => on_side s (default fresh_summary (pd !! symbol))
    end.
Proof.
  unfold contribution, hits, add_position.
  destruct (i_size info) as [size|]; [|reflexivity].
  destruct (i_side info) as [sd|]; [|reflexivity].
  destruct (i_avgPrice info) as [avgp|]; [|reflexivity].
  set (k := split_colon_head (default "" (i_symbol info))).
  set (details := match pd !! k with Some _ => pd | None => <[k:=fresh_summary]> pd end).
  assert (Hdet : default fresh_summary (details !! symbol)
                 = default fresh_summary (pd !! symbol)).
  { subst details. destruct (pd !! k) eqn:E; [reflexivity|].
    destruct (decide (k = symbol)) as [<-|Hne].
    - now rewrite lookup_insert_eq, E.
    - now rewrite lookup_insert_ne. }
  assert (Hsome : k = symbol -> is_Some (details !! symbol)).
  { intros <-. subst details. destruct (pd !! k) eqn:E; [now rewrite E|].
    rewrite lookup_insert_eq. eauto. }
  destruct (String.eqb k symbol) eqn:Ek;
    [apply String.eqb_eq in Ek | apply String.eqb_neq in Ek].
  - destruct (Hsome Ek) as [d0 Hd0]. rewrite Hd0 in Hdet. simpl in Hdet.
    destruct (side_of_string sd) as [s'|]; simpl.
    + rewrite Ek, lookup_alter_eq, Hd0. simpl. rewrite <- Hdet.
      destruct s, s'; reflexivity.
    + rewrite Hd0. simpl. now rewrite Hdet.
  - simpl. destruct (side_of_string sd) as [s'|].
    + rewrite lookup_alter_ne by exact Ek. now rewrite Hdet.
    + now rewrite Hdet.
Qed.

Lemma fold_side records symbol s :
  forall pd,
    on_side s (default fresh_summary (foldl add_position pd records !! symbol))
    = SideSummary
        (foldl (fun acc r => match contribution symbol s r with
                             | Some (size, _) => acc + size
                             | None => acc
                             end)
               (qty (on_side s (default fresh_summary (pd !! symbol)))) records)
        (foldl (fun acc r => match contribution symbol s r with
                             | Some (_, avgp) => avgp
                             | None => acc
                             end)
               (avg_price (on_side s (default fresh_summary (pd !! symbol)))) records).
Proof.
  induction records as [|r rest IH]; intros pd; simpl.
  - now destruct (on_side s _).
  - rewrite IH, add_position_side.
    now destruct (contribution symbol s r) as [[size avgp]|].
Qed.

Lemma fold_entry records symbol :
  forall pd,
    is_some (foldl add_position pd records !! symbol)
    = is_some (pd !! symbol) || existsb (complete_for symbol) records.
Proof.
  induction records as [|r rest IH]; intros pd; simpl.
  - now rewrite orb_false_r.
  - rewrite IH, orb_assoc. f_equal.
    unfold complete_for, complete, record_symbol, add_position.
    destruct (i_size r), (i_side r) as [sd|], (i_avgPrice r);
      simpl; rewrite ?orb_false_r; try reflexivity.
    set (k := split_colon_head (default "" (i_symbol r))).
    assert (H : forall m : gmap string symbol_summary,
               is_some (match side_of_string sd with
                        | Some s => alter (accumulate s q q0) k m
                        | None => m
                        end !! symbol) = is_some (m !! symbol)).
    { intros m. destruct (side_of_string sd); [|reflexivity].
      destruct (decide (k = symbol)) as [<-|Hne].
      - rewrite lookup_alter_eq. now destruct (m !! k).
      - now rewrite lookup_alter_ne. }
    rewrite H.
    destruct (String.eqb k symbol) eqn:Ek;
      [apply String.eqb_eq in Ek | apply String.eqb_neq in Ek].
    + subst symbol. destruct (pd !! k) eqn:E; [now rewrite E|].
      now rewrite lookup_insert_eq.
    + rewrite orb_false_r. destruct (pd !! k) eqn:E; [reflexivity|].
      now rewrite lookup_insert_ne.
Qed.

End Totals.

(** X4. For any list of raw records, the snapshot quantity of a symbol and
    side is the sum, in list order, of the sizes of the complete records
    filed under that symbol on that side, and when the symbol has an entry
    its average price is that of the last such record (0 if there is
    none): records of other symbols or sides and incomplete records do not
    count. *)
Theorem snapshot_totals (records : list raw_info) (symbol : string) (s : side) :
  let pd := build_position_details records in
  get_qty pd symbol s = total_qty symbol s records
  /\ get_avg_price pd symbol s
     = if existsb (complete_for symbol) records
       then Some (last_price symbol s records)
       else None.
Proof.
  intros pd.
  pose proof (fold_side records symbol s ∅) as Hside.
  pose proof (fold_entry records symbol ∅) as Hentry.
  rewrite lookup_empty in Hside, Hentry. simpl in Hentry.
  fold (build_position_details records) in Hside, Hentry. fold pd in Hside, Hentry.
  assert (Z : on_side s (default fresh_summary None) = SideSummary 0 0)
    by now destruct s.
  rewrite Z in Hside. simpl in Hside.
  fold (total_qty symbol s records) in Hside.
  fold (last_price symbol s records) in Hside.
  unfold get_qty, get_avg_price. rewrite <- Hentry.
  destruct (pd !! symbol) as [d|] eqn:E; simpl in *.
  - now rewrite Hside.
  - split; [|reflexivity].
    replace (on_side s fresh_summary) with (SideSummary 0 0) in Hside
      by now destruct s.
    now injection Hside as <- _.
Qed.

(** X5. A symbol has an entry in the snapshot exactly when some record
    filed under it has a size, a side and an average price, whatever the
    side string says: a complete record with an unknown side still creates
    the entry, with both sides at zero. *)
Theorem snapshot_entry_iff_complete_record
    (records : list raw_info) (symbol : string) :
  is_some (build_position_details records !! symbol)
  = existsb (complete_for symbol) records.
Proof.
  unfold build_position_details. rewrite fold_entry, lookup_empty. reflexivity.
Qed.

(** X6. Records that lack a size, a side or an average price are skipped
    wherever they stand in the list: the snapshot is that of the complete
    records alone. *)
Theorem incomplete_records_are_skipped (records : list raw_info) :
  build_position_details records
  = build_position_details (List.filter complete records).
Proof.
  unfold build_position_details. generalize (∅ : gmap string symbol_summary).
  induction records as [|r rest IH]; intros pd; [reflexivity|].
  simpl. destruct (complete r) eqn:E; simpl.
  - apply IH.
  - rewrite (add_position_incomplete pd r E). apply IH.
Qed.

(** ** How a pass ends *)

Lemma sleep_total_app (tr1 tr2 : list event) :
  sleep_total (tr1 ++ tr2) = (sleep_total tr1 + sleep_total tr2)%nat.
Proof.
  induction tr1 as [|e tr1 IH]; simpl; [reflexivity|].
  destruct e; simpl; lia.
Qed.

(** A pass that gets past the test of line 188 has a total equity. *)
Lemma equity_after_step_present (st : loop_state) (inp : input) :
  should_refresh_equity (in_time inp) (loc st)
  && negb (is_some (total_equity (after_equity_step st inp))) = false ->
  total_equity (after_equity_step st inp) <> None.
Proof.
  unfold after_equity_step, should_refresh_equity.
  destruct (Qgtb _ _); simpl.
  - destruct (in_balance inp); simpl; [discriminate 2 | discriminate 1].
  - destruct (total_equity (loc st)) eqn:E; simpl.
    + rewrite E. discriminate 2.
    + destruct (in_balance inp); simpl; [discriminate 2 | discriminate 1].
Qed.

Lemma equity_present_passes_test (st : loop_state) (inp : input) :
  total_equity (after_equity_step st inp) <> None ->
  should_refresh_equity (in_time inp) (loc st)
  && negb (is_some (total_equity (after_equity_step st inp))) = false.
Proof.
  intros H. destruct (total_equity (after_equity_step st inp)); [|contradiction].
  simpl. apply andb_false_r.
Qed.

(** X7. A pass for a blacklisted symbol that has a total equity ends the
    loop ([break], line 196) right after the position, order and balance
    reads: no trading call is made, the strategy object and the exchange
    are as before, and the passes that would follow are not run. *)
Theorem blacklisted_symbol_stops cfg symbol rot (st : loop_state) (inp : input) :
  str_in symbol (blacklist cfg) = true ->
  total_equity (after_equity_step st inp) <> None ->
  let r := iteration cfg symbol rot st inp in
  r_outcome r = Stop
  /\ count_events is_trading_action (r_trace r) = O
  /\ r_state r = LoopState (after_equity_step st inp) (self st) (exch st)
  /\ forall rest, loop cfg symbol rot st (inp :: rest) = r.
Proof.
  intros Hbl Heq r.
  assert (E : r = Result (LoopState (after_equity_step st inp) (self st) (exch st))
                         ([EvGetAllOpenPositions; EvGetOpenOrders]
                          ++ (if should_refresh_equity (in_time inp) (loc st)
                              then [EvGetBalance; EvGetAvailableBalance] else []))
                         Stop).
  { subst r. unfold iteration. cbv zeta.
    rewrite (equity_present_passes_test st inp Heq), Hbl. reflexivity. }
  split; [now rewrite E|]. split.
  - rewrite E. cbn [r_trace]. now destruct (should_refresh_equity _ _).
  - split; [now rewrite E|].
    intros rest. simpl loop. fold r. now rewrite E.
Qed.

Lemma blacklisted_symbol_stops_witness :
  r_outcome (iteration (Config ["BTCUSDT"] false false) "BTCUSDT"
               (Some ["BTCUSDT"]) funded_state
               (sample_input 20 [long_position] ["BTCUSDT"] None true 2 None 100))
  = Stop.
Proof.
  apply (blacklisted_symbol_stops (Config ["BTCUSDT"] false false) "BTCUSDT"
           (Some ["BTCUSDT"]) funded_state
           (sample_input 20 [long_position] ["BTCUSDT"] None true 2 None 100)).
  - reflexivity.
  - vm_compute. discriminate.
Defined.

(** X8. While the total equity is unset and [get_balance_bybit] keeps
    returning [None], every pass fetches the balance again and restarts:
    the loop runs on without a single trading call, the strategy object and
    the exchange stay as they are, and the blacklist is never looked at,
    so even a blacklisted symbol does not end the loop. *)
Theorem equity_outage_keeps_retrying cfg symbol rot (inputs : list input) :
  forall st : loop_state,
    total_equity (loc st) = None ->
    Forall (fun inp => in_balance inp = None) inputs ->
    let r := loop cfg symbol rot st inputs in
    r_outcome r = Next
    /\ count_events is_equity_fetch (r_trace r) = length inputs
    /\ count_events is_trading_action (r_trace r) = O
    /\ total_equity (loc (r_state r)) = None
    /\ self (r_state r) = self st
    /\ exch (r_state r) = exch st.
Proof.
  induction inputs as [|inp rest IH]; intros st Hnone Hall; [now simpl|].
  inversion Hall as [|? ? Hbal Hrest]; subst.
  assert (Hgate : should_refresh_equity (in_time inp) (loc st) = true).
  { unfold should_refresh_equity. rewrite Hnone. apply orb_true_r. }
  assert (E : iteration cfg symbol rot st inp
              = Result (LoopState (with_equity None (in_available_balance inp)
                                               (in_time inp) (loc st))
                                  (self st) (exch st))
                       [EvGetAllOpenPositions; EvGetOpenOrders;
                        EvGetBalance; EvGetAvailableBalance; EvSleep 10]
                       Restart).
  { unfold iteration, after_equity_step. cbv zeta.
    rewrite Hgate, Hbal. reflexivity. }
  simpl loop. rewrite E. cbn [r_outcome r_state r_trace]. cbv zeta.
  destruct (IH (LoopState (with_equity None (in_available_balance inp)
                                       (in_time inp) (loc st))
                          (self st) (exch st)) eq_refl Hrest)
    as (Ho & Hf & Ht & He & Hs & Hx).
  cbn [r_outcome r_state r_trace].
  rewrite !count_events_app, Hf, Ht. simpl. auto 10.
Qed.

Lemma equity_outage_keeps_retrying_witness :
  count_events is_equity_fetch
    (r_trace (loop (Config ["BTCUSDT"] false false) "BTCUSDT" (Some ["BTCUSDT"])
                (start sample_strategy)
                [sample_input 10 [] [] None true 2 None 100;
                 sample_input 50 [] [] None true 2 None 100])) = 2%nat.
Proof.
  apply (equity_outage_keeps_retrying (Config ["BTCUSDT"] false false) "BTCUSDT"
           (Some ["BTCUSDT"])
           [sample_input 10 [] [] None true 2 None 100;
            sample_input 50 [] [] None true 2 None 100]
           (start sample_strategy)).
  - reflexivity.
  - repeat constructor.
Defined.

Lemma managing_event_equity cfg symbol t pd ask st inp e equity :
  In e (r_trace (managing cfg symbol t pd ask st inp)) ->
  event_equity e = Some equity ->
  equity = total_equity (loc st).
Proof.
  unfold managing. cbn [r_trace].
  destruct (placement (get_qty pd symbol Long) _ _);
  destruct (placement (get_qty pd symbol Short) _ _);
  destruct (reschedule_due (get_qty pd symbol Long) _ _ _);
  destruct (reschedule_due (get_qty pd symbol Short) _ _ _);
  destruct (test_orders_enabled cfg && _);
  intros H He; equity_events H He.
Qed.

(** X9. Every call of a pass that is handed the total equity
    ([initialize_symbol], the leverage setters, the dynamic-amount
    functions) and every published status record carries the total equity
    as it stands after the equity step, and that is never [None]. *)
Theorem trading_calls_have_equity cfg symbol rot (st : loop_state) (inp : input)
    (e : event) (equity : option Q) :
  In e (r_trace (iteration cfg symbol rot st inp)) ->
  event_equity e = Some equity ->
  equity = total_equity (after_equity_step st inp) /\ equity <> None.
Proof.
  intros Hin He.
  enough (H : total_equity (after_equity_step st inp) <> None
              /\ equity = total_equity (after_equity_step st inp)).
  { destruct H as [H1 H2]. split; [exact H2 | now rewrite H2]. }
  revert Hin. unfold iteration. cbv zeta.
  set (refresh := should_refresh_equity _ _).
  destruct (refresh && _) eqn:Etest; cbn [r_trace].
  { destruct refresh; intros H; equity_events H He. }
  pose proof (equity_after_step_present st inp Etest) as Hpresent.
  intros Hin. split; [exact Hpresent|]. revert Hin.
  destruct (str_in symbol (blacklist cfg)); cbn [r_trace].
  { destruct refresh; intros H; equity_events H He. }
  destruct rot as [rotator|].
  - destruct (select_branch _ _ _) eqn:Eb.
    + rewrite managing_outcome. cbn [r_trace r_state]. unfold publish.
      pose proof (fun H => managing_event_equity cfg symbol (in_time inp)
                    (build_position_details (in_open_position_data inp))
                    (best_ask_of (read_market symbol st inp))
                    (state_of (read_market symbol st inp)) inp e equity H He)
        as Hm.
      set (branch_trace := r_trace (managing _ _ _ _ _ _ _)) in *.
      clearbody branch_trace.
      destruct refresh, (dashboard_enabled cfg); intros H;
        rewrite ?in_app_iff in H; simpl in H;
        repeat (destruct H as [H|H]); try contradiction;
        try exact (Hm H); subst; simpl in He; try discriminate He;
        injection He as <-; reflexivity.
    + now apply select_branch_not_prospecting in Eb.
    + cbn [r_outcome r_trace r_state]. unfold publish.
      destruct refresh, (dashboard_enabled cfg); intros H; equity_events H He.
  - destruct (map remove_slash _); cbn [r_trace];
      destruct refresh; intros H; equity_events H He.
Qed.

Lemma trading_calls_have_equity_witness :
  Some 1000 = total_equity (after_equity_step (start sample_strategy)
                 (sample_input 10 [] [] (Some 1000) true 2 None 100))
  /\ Some 1000 <> None.
Proof.
  apply (trading_calls_have_equity sample_config "BTCUSDT" (Some ["BTCUSDT"])
           (start sample_strategy)
           (sample_input 10 [] [] (Some 1000) true 2 None 100)
           (EvUpdateDynamicAmounts (Some 1000))).
  - vm_compute. find_event.
  - reflexivity.
Defined.

Lemma managing_counts cfg symbol t pd ask st inp :
  count_events is_publish (r_trace (managing cfg symbol t pd ask st inp)) = O
  /\ sleep_total (r_trace (managing cfg symbol t pd ask st inp)) = 30%nat
  /\ (test_orders_enabled cfg = false ->
      count_events is_helper (r_trace (managing cfg symbol t pd ask st inp)) = O).
Proof.
  unfold managing. cbn [r_trace].
  repeat split; [| |intros Hoff; rewrite Hoff; cbn [andb]];
    rewrite ?count_events_app, ?sleep_total_app;
    split_trace; reflexivity.
Qed.

Lemma publish_counts cfg symbol l :
  count_events is_publish (publish cfg symbol l) = 1%nat
  /\ sleep_total (publish cfg symbol l) = 30%nat
  /\ count_events is_helper (publish cfg symbol l) = O
  /\ count_events is_branch_call (publish cfg symbol l) = O.
Proof. unfold publish. now destruct (dashboard_enabled cfg). Qed.

(** X10. A pass that runs to the end of the loop body has written one
    status record (line 516); a pass that restarts at line 191 or stops at
    line 196 has written none. *)
Theorem publish_once_per_completed_pass cfg symbol rot (st : loop_state)
    (inp : input) :
  let r := iteration cfg symbol rot st inp in
  (r_outcome r = Next -> count_events is_publish (r_trace r) = 1%nat)
  /\ (r_outcome r = Restart -> count_events is_publish (r_trace r) = O)
  /\ (r_outcome r = Stop -> count_events is_publish (r_trace r) = O).
Proof.
  cbv zeta. unfold iteration. cbv zeta.
  set (refresh := should_refresh_equity _ _).
  destruct (refresh && _); cbn [r_trace r_outcome].
  { repeat split; try discriminate; intros _;
      rewrite !count_events_app; now destruct refresh. }
  destruct (str_in symbol (blacklist cfg)); cbn [r_trace r_outcome].
  { repeat split; try discriminate; intros _;
      rewrite !count_events_app; now destruct refresh. }
  destruct rot as [rotator|].
  - destruct (select_branch _ _ _) eqn:Eb.
    + rewrite managing_outcome. cbn [r_trace r_state r_outcome].
      repeat split; try discriminate; intros _.
      rewrite !count_events_app.
      rewrite (proj1 (managing_counts _ _ _ _ _ _ _)).
      rewrite (proj1 (publish_counts _ _ _)).
      destruct refresh; reflexivity.
    + now apply select_branch_not_prospecting in Eb.
    + cbn [r_outcome r_trace r_state].
      repeat split; try discriminate; intros _.
      rewrite !count_events_app.
      rewrite (proj1 (publish_counts _ _ _)).
      destruct refresh; reflexivity.
  - destruct (map remove_slash _); cbn [r_trace r_outcome];
      repeat split; discriminate.
Qed.

Lemma publish_once_per_completed_pass_witness :
  count_events is_publish
    (r_trace (iteration sample_config "BTCUSDT" (Some ["BTCUSDT"])
                (start sample_strategy)
                (sample_input 10 [long_position] ["BTCUSDT"] (Some 1000)
                              true 2 None 100))) = 1%nat.
Proof.
  apply (publish_once_per_completed_pass sample_config "BTCUSDT"
           (Some ["BTCUSDT"]) (start sample_strategy)
           (sample_input 10 [long_position] ["BTCUSDT"] (Some 1000)
                         true 2 None 100)).
  reflexivity.
Defined.

(** X11. With a rotation list, a pass sleeps 10 seconds when it restarts
    after a failed equity fetch, not at all when it stops on the
    blacklist, 70 seconds (10 + 30 + 30) when it runs the first branch to
    the end and 40 seconds (10 + 30) when it skips both branches. *)
Theorem pass_sleep_time cfg symbol (rotator : list string) (st : loop_state)
    (inp : input) :
  sleep_total (r_trace (iteration cfg symbol (Some rotator) st inp))
  = match r_outcome (iteration cfg symbol (Some rotator) st inp) with
    | Restart => 10%nat
    | Next =>
        match select_branch (str_in symbol rotator)
                (str_in symbol (map remove_slash (in_extracted_symbols inp)))
                (in_trading_allowed inp) with
        | Managing => 70%nat
        | _ => 40%nat
        end
    | _ => O
    end.
Proof.
  unfold iteration. cbv zeta.
  set (refresh := should_refresh_equity _ _).
  destruct (refresh && _); cbn [r_trace r_outcome].
  { rewrite !sleep_total_app. now destruct refresh. }
  destruct (str_in symbol (blacklist cfg)); cbn [r_trace r_outcome].
  { rewrite !sleep_total_app. now destruct refresh. }
  destruct (select_branch _ _ _) eqn:Eb.
  - rewrite managing_outcome. cbn [r_trace r_state r_outcome].
    rewrite !sleep_total_app.
    rewrite (proj1 (proj2 (managing_counts _ _ _ _ _ _ _))).
    rewrite (proj1 (proj2 (publish_counts _ _ _))).
    destruct refresh; reflexivity.
  - now apply select_branch_not_prospecting in Eb.
  - cbn [r_outcome r_trace r_state]. rewrite !sleep_total_app.
    rewrite (proj1 (proj2 (publish_counts _ _ _))).
    destruct refresh; reflexivity.
Qed.

(** ** Without a rotation list, outside it, without test orders *)

Lemma default_rotator_pass cfg symbol (st : loop_state) (inp : input) :
  r_outcome (iteration cfg symbol None st inp) <> Next
  /\ count_events after_branch_test (r_trace (iteration cfg symbol None st inp)) = O
  /\ (total_equity (after_equity_step st inp) <> None ->
      str_in symbol (blacklist cfg) = false ->
      r_outcome (iteration cfg symbol None st inp) = Raise).
Proof.
  unfold iteration. cbv zeta.
  pose proof (equity_present_passes_test st inp) as Hpass.
  set (refresh := should_refresh_equity _ _) in *.
  destruct (refresh && _) eqn:Etest; cbn [r_trace r_outcome].
  { repeat split; [discriminate | rewrite !count_events_app; now destruct refresh |].
    intros Hp _. specialize (Hpass Hp). discriminate. }
  destruct (str_in symbol (blacklist cfg)); cbn [r_trace r_outcome].
  { repeat split; [discriminate | rewrite !count_events_app; now destruct refresh |].
    discriminate 2. }
  destruct (map remove_slash _); cbn [r_trace r_outcome];
    (repeat split; [discriminate | rewrite !count_events_app; now destruct refresh]).
Qed.

Lemma default_rotator_loop cfg symbol (inputs : list input) :
  forall st : loop_state,
    count_events after_branch_test (r_trace (loop cfg symbol None st inputs)) = O.
Proof.
  induction inputs as [|inp rest IH]; intros st; [reflexivity|].
  destruct (default_rotator_pass cfg symbol st inp) as (_ & Hc & _).
  simpl loop. destruct (r_outcome (iteration cfg symbol None st inp));
    cbv zeta; cbn [r_trace]; rewrite ?count_events_app, ?Hc, ?IH; reflexivity.
Qed.

(** X12. Called without a rotation list ([rotator_symbols_standardized] is
    [None] by default), the loop never gets to a branch: a pass that has a
    total equity and a symbol off the blacklist raises at the membership
    test of line 223 or 249, no pass runs to its end, and no pass makes a
    call of a branch or publishes a status record. *)
Theorem default_rotator_never_trades cfg symbol (st : loop_state)
    (inputs : list input) (inp : input) :
  count_events after_branch_test (r_trace (loop cfg symbol None st inputs)) = O
  /\ r_outcome (iteration cfg symbol None st inp) <> Next
  /\ (total_equity (after_equity_step st inp) <> None ->
      str_in symbol (blacklist cfg) = false ->
      r_outcome (iteration cfg symbol None st inp) = Raise).
Proof.
  split; [apply default_rotator_loop|].
  destruct (default_rotator_pass cfg symbol st inp) as (Hn & _ & Hr). auto.
Qed.

Lemma default_rotator_never_trades_witness :
  r_outcome (iteration sample_config "BTCUSDT" None (start sample_strategy)
               (sample_input 10 [long_position] ["BTCUSDT"] (Some 1000)
                             true 2 None 100))
  = Raise.
Proof.
  apply (default_rotator_never_trades sample_config "BTCUSDT"
           (start sample_strategy) []
           (sample_input 10 [long_position] ["BTCUSDT"] (Some 1000)
                         true 2 None 100)).
  - vm_compute. discriminate.
  - reflexivity.
Defined.

(** X13. A pass for a symbol that is not in the rotation list, has no open
    position and may not trade as a new symbol runs neither branch: it
    makes no call of a branch, keeps the locals of the pass before but for
    the equity and the current price, and still publishes one status
    record, made of those locals. *)
Theorem ineligible_symbol_only_publishes cfg symbol (rotator : list string)
    (st : loop_state) (inp : input) :
  str_in symbol rotator = false ->
  str_in symbol (map remove_slash (in_extracted_symbols inp)) = false ->
  in_trading_allowed inp = false ->
  total_equity (after_equity_step st inp) <> None ->
  str_in symbol (blacklist cfg) = false ->
  let r := iteration cfg symbol (Some rotator) st inp in
  let l := with_current_price (in_current_price inp) (after_equity_step st inp) in
  r_outcome r = Next
  /\ count_events is_branch_call (r_trace r) = O
  /\ loc (r_state r) = l
  /\ exch (r_state r) = exch st
  /\ In (EvPublish (status_record symbol l)) (r_trace r).
Proof.
  intros Hrot Hopen Hallowed Hp Hbl r l. subst r l.
  unfold iteration. cbv zeta.
  rewrite (equity_present_passes_test st inp Hp), Hbl, Hrot, Hopen, Hallowed.
  cbn [select_branch orb andb negb r_outcome r_trace r_state].
  repeat split.
  - rewrite !count_events_app.
    rewrite (proj2 (proj2 (proj2 (publish_counts _ _ _)))).
    now destruct (should_refresh_equity _ _).
  - apply in_or_app. right. apply in_or_app. right.
    unfold publish. apply in_or_app. left. now left.
Qed.

Lemma ineligible_symbol_only_publishes_witness :
  r_outcome (iteration sample_config "BTCUSDT" (Some ["ETHUSDT"]) funded_state
               (sample_input 20 [] [] None false 2 None 100)) = Next
  /\ loc (r_state (iteration sample_config "BTCUSDT" (Some ["ETHUSDT"])
                     funded_state (sample_input 20 [] [] None false 2 None 100)))
     = with_current_price (Some 100) (loc funded_state).
Proof.
  destruct (ineligible_symbol_only_publishes sample_config "BTCUSDT" ["ETHUSDT"]
              funded_state (sample_input 20 [] [] None false 2 None 100))
    as (Ho & _ & Hl & _); try reflexivity.
  - vm_compute. discriminate.
  - split; [exact Ho | exact Hl].
Defined.

Lemma test_orders_off_pass cfg symbol rot (st : loop_state) (inp : input) :
  test_orders_enabled cfg = false ->
  count_events is_helper (r_trace (iteration cfg symbol rot st inp)) = O
  /\ last_cancel_time (self (r_state (iteration cfg symbol rot st inp)))
     = last_cancel_time (self st)
  /\ spoofing_active (self (r_state (iteration cfg symbol rot st inp)))
     = spoofing_active (self st).
Proof.
  intros Hoff. unfold iteration. cbv zeta.
  set (refresh := should_refresh_equity _ _).
  destruct (refresh && _); cbn [r_trace r_state].
  { repeat split. rewrite !count_events_app. now destruct refresh. }
  destruct (str_in symbol (blacklist cfg)); cbn [r_trace r_state].
  { repeat split. rewrite !count_events_app. now destruct refresh. }
  destruct rot as [rotator|].
  - destruct (select_branch _ _ _) eqn:Eb.
    + rewrite managing_outcome. cbn [r_trace r_state]. repeat split.
      * rewrite !count_events_app.
        rewrite (proj2 (proj2 (managing_counts _ _ _ _ _ _ _)) Hoff).
        rewrite (proj1 (proj2 (proj2 (publish_counts _ _ _)))).
        now destruct refresh.
      * unfold managing. cbn [r_state self last_cancel_time]. now rewrite Hoff.
      * unfold managing. cbn [r_state self spoofing_active]. now rewrite Hoff.
    + now apply select_branch_not_prospecting in Eb.
    + cbn [r_outcome r_trace r_state]. repeat split.
      rewrite !count_events_app.
      rewrite (proj1 (proj2 (proj2 (publish_counts _ _ _)))).
      now destruct refresh.
  - destruct (map remove_slash _); cbn [r_trace r_state]; repeat split;
      rewrite !count_events_app; now destruct refresh.
Qed.

(** X14. With [test_orders_enabled] off, no pass of the loop calls
    [helperv2], and [self.last_cancel_time] and [self.spoofing_active]
    stay what they were. *)
Theorem test_orders_off_never_inject cfg symbol rot (inputs : list input) :
  test_orders_enabled cfg = false ->
  forall st : loop_state,
    let r := loop cfg symbol rot st inputs in
    count_events is_helper (r_trace r) = O
    /\ last_cancel_time (self (r_state r)) = last_cancel_time (self st)
    /\ spoofing_active (self (r_state r)) = spoofing_active (self st).
Proof.
  intros Hoff. induction inputs as [|inp rest IH]; intros st; [now simpl|].
  destruct (test_orders_off_pass cfg symbol rot st inp Hoff) as (Hc & Hl & Hs).
  simpl loop. destruct (r_outcome (iteration cfg symbol rot st inp));
    cbv zeta; cbn [r_trace r_state]; auto.
  all: destruct (IH (r_state (iteration cfg symbol rot st inp))) as (Hc' & Hl' & Hs');
    rewrite count_events_app, Hc, Hc', Hl', Hs', Hl, Hs; auto.
Qed.

Lemma test_orders_off_never_inject_witness :
  count_events is_helper
    (r_trace (loop sample_config "BTCUSDT" (Some ["BTCUSDT"])
                (start sample_strategy) two_passes)) = O.
Proof.
  apply (test_orders_off_never_inject sample_config "BTCUSDT" (Some ["BTCUSDT"])
           two_passes eq_refl (start sample_strategy)).
Defined.

(** ** A new strategy object and the order book *)

Lemma loop_reports_last_live_bid cfg symbol rot st (inputs : list input)
    (inp : input) :
  last_known_bid (self st) !! symbol = None ->
  best_bid_of (read_market symbol (r_state (loop cfg symbol rot st inputs)) inp)
  = match top_of_book (bids (in_order_book inp)) with
    | Some p => Some p
    | None => last_live (map bids (seen_books cfg symbol rot st inputs))
    end.
Proof.
  intros Hnone. unfold best_bid_of, read_market. cbn [fst snd].
  destruct (top_of_book (bids (in_order_book inp))) as [p|] eqn:E.
  - now rewrite (best_price_live _ _ _ _ E).
  - rewrite (best_price_empty _ _ _ E). cbn [fst].
    rewrite (proj2 (loop_last_known cfg symbol rot inputs st)).
    rewrite remember_lookup, Hnone.
    now destruct (last_live _).
Qed.

(** X16. For a strategy object as [__init__] makes it, after any passes of
    the loop the next pass reports as best ask (bid) the live top of the
    book if that side is not empty, else the latest live top among the
    books the earlier passes actually read (passes cut short by a failed
    equity fetch read none), else [None]. *)
Theorem new_strategy_reports_last_live cfg symbol rot (next_long next_short : Q)
    (inputs : list input) (inp : input) :
  let st := start (new_strategy next_long next_short) in
  let seen := seen_books cfg symbol rot st inputs in
  let m := read_market symbol (r_state (loop cfg symbol rot st inputs)) inp in
  best_ask_of m = match top_of_book (asks (in_order_book inp)) with
                  | Some p => Some p
                  | None => last_live (map asks seen)
                  end
  /\ best_bid_of m = match top_of_book (bids (in_order_book inp)) with
                     | Some p => Some p
                     | None => last_live (map bids seen)
                     end.
Proof.
  intros st seen m. split.
  - apply loop_reports_last_live. apply lookup_empty.
  - apply loop_reports_last_live_bid. apply lookup_empty.
Qed.

(** The snapshot of [mixed_records]. *)
Example mixed_records_snapshot :
  get_qty (build_position_details mixed_records) "BTCUSDT" Long = 0 + 3 + 2 + 1
  /\ get_avg_price (build_position_details mixed_records) "BTCUSDT" Long = Some 80
  /\ get_qty (build_position_details mixed_records) "BTCUSDT" Short = 0 + 4
  /\ get_avg_price (build_position_details mixed_records) "XRPUSDT" Long = None.
Proof. repeat split; reflexivity. Qed.
